(** * Sales analysis: KPI, grouped aggregations and customer segmentation

    A shallow embedding of [src/sales_analyzer.py].

    Modelling conventions.
    - A DataFrame of sales is the list of its rows, in row order.
    - Monetary columns hold decimal numbers with two fractional digits
      ([data_generator.py] rounds every one of them with [round(x, 2)]);
      they are integers counted in hundredths, and so are their sums.
      The source adds them as floats: a sum that is rounded with
      [.round(2)] is the exact sum again, while the unrounded sums and the
      averages of the KPI hold the exact value here and may differ from
      the float in its last digits or, for an average, in a rounding at
      one half.
      [margin_percent] is a percentage with two fractional digits, counted
      in hundredths too.
    - A float that results from a division is an exact rational, [NaN] or an
      infinity: [fval].
    - [groupby] yields its groups in ascending key order (pandas' default
      [sort=True]); rows keep their order inside a group.
    - [sort_values] is called with the default [kind='quicksort'], which is
      not a stable sort: the embedding takes the sorting routine as a
      parameter, constrained by what [sort_values] promises. *)

From Stdlib Require Import ZArith QArith Qround List String Ascii Bool Lia.
From Stdlib Require Import Permutation Sorted OrderedTypeEx.
Import ListNotations.

Open Scope Z_scope.

(** ** Data model *)

Inductive order_status := Livree | En_cours | Annulee.

Definition order_status_eqb (a b : order_status) : bool :=
  match a, b with
  | Livree, Livree | En_cours, En_cours | Annulee, Annulee => true
  | _, _ => false
  end.

Record civil_date := mk_date { year : Z; month : Z; day : Z }.

(** One row of the sales table.  [year_month] is the column that
    [analyze_time_trends] adds to its working table; the loaded table has
    none ([None]). *)
Record sale := mk_sale {
  order_id : string;
  date : civil_date;
  customer_id : string;
  product : string;
  category : string;
  quantity : Z;
  unit_price : Z;
  total_price : Z;
  unit_cost : Z;
  total_cost : Z;
  profit : Z;
  margin_percent : Z;
  region : string;
  channel : string;
  status : order_status;
  year_month : option Z
}.

(** [table['date'] = ...] and [table['year_month'] = ...], on one row. *)
Definition set_date (r : sale) (d : civil_date) : sale :=
  mk_sale (order_id r) d (customer_id r) (product r) (category r)
          (quantity r) (unit_price r) (total_price r) (unit_cost r)
          (total_cost r) (profit r) (margin_percent r) (region r)
          (channel r) (status r) (year_month r).

Definition set_year_month (r : sale) (p : option Z) : sale :=
  mk_sale (order_id r) (date r) (customer_id r) (product r) (category r)
          (quantity r) (unit_price r) (total_price r) (unit_cost r)
          (total_cost r) (profit r) (margin_percent r) (region r)
          (channel r) (status r) p.

Definition dataframe := list sale.

(** ** Numbers *)

(** A float: a rational in the column's own unit (currency, percent, days),
    NaN or an infinity. *)
Inductive fval := Num (q : Q) | NaN | Inf (negative : bool).

Definition sum (l : list Z) : Z := fold_right Z.add 0 l.

(** [Series.mean()] of a column that counts in [1/unit]: NaN on an empty
    column. *)
Definition mean (unit : positive) (l : list Z) : fval :=
  match l with
  | [] => NaN
  | _ :: _ => Num (sum l # (unit * Pos.of_nat (List.length l)))
  end.

(** numpy's float division of a sum of hundredths by a count: [0.0 / 0] is
    NaN and [x / 0] an infinity, with a warning and no exception. *)
Definition true_divide (x : Z) (n : nat) : fval :=
  match n with
  | O => if x =? 0 then NaN else Inf (x <? 0)
  | S _ => Num (x # (100 * Pos.of_nat n))
  end.

(** Round half to even, to an integer. *)
Definition rint (q : Q) : Z :=
  let f := Qfloor q in
  match Qcompare (q - inject_Z f) (1 # 2) with
  | Lt => f
  | Gt => f + 1
  | Eq => if Z.even f then f else f + 1
  end.

(** [.round(2)] on a float column. *)
Definition round2 (x : fval) : fval :=
  match x with
  | Num q => Num (rint (q * 100) # 100)
  | NaN => NaN
  | Inf s => Inf s
  end.

(** [.round(2)] on a sum of hundredths. *)
Definition round2_sum (z : Z) : Z := rint ((z # 100) * 100).

(** The sum of an int64 column: numpy adds with wrap-around. *)
Definition wrap_int64 (z : Z) : Z := (z + 2 ^ 63) mod 2 ^ 64 - 2 ^ 63.

Definition sum_int64 (l : list Z) : Z := wrap_int64 (sum l).

(** ** Dates *)

(** Days since 1970-01-01 of a proleptic Gregorian date. *)
Definition to_ordinal (d : civil_date) : Z :=
  let y := if month d <=? 2 then year d - 1 else year d in
  let era := y / 400 in
  let yoe := y - era * 400 in
  let mp := (month d + 9) mod 12 in
  let doy := (153 * mp + 2) / 5 + day d - 1 in
  let doe := yoe * 365 + yoe / 4 - yoe / 100 + doy in
  era * 146097 + doe - 719468.

(** [dt.to_period('M')]: the ordinal of the calendar month. *)
Definition to_period_M (d : civil_date) : Z :=
  (year d - 1970) * 12 + (month d - 1).

(** [pd.to_datetime] on a column that holds timestamps already. *)
Definition to_datetime (d : civil_date) : civil_date := d.

Definition date_leb (a b : civil_date) : bool :=
  (year a <? year b)
  || ((year a =? year b)
      && ((month a <? month b)
          || ((month a =? month b) && (day a <=? day b)))).

(** [Series.max()] of a datetime column: [None] stands for NaT. *)
Fixpoint date_max (l : list civil_date) : option civil_date :=
  match l with
  | [] => None
  | d :: l' =>
      match date_max l' with
      | None => Some d
      | Some m => Some (if date_leb m d then d else m)
      end
  end.

(** ** Group keys *)

(** The order pandas sorts group keys by. *)
Class KeyCmp (K : Type) := kcmp : K -> K -> comparison.

Class KeyOrder (K : Type) `{KeyCmp K} : Prop := {
  kcmp_eq : forall a b : K, kcmp a b = Eq <-> a = b;
  kcmp_antisym : forall a b : K, kcmp b a = CompOpp (kcmp a b);
  kcmp_trans : forall a b c : K, kcmp a b = Lt -> kcmp b c = Lt -> kcmp a c = Lt
}.

#[export] Instance string_cmp : KeyCmp string := String.compare.
#[export] Instance Z_cmp : KeyCmp Z := Z.compare.

Definition keqb {K} `{KeyCmp K} (a b : K) : bool :=
  match kcmp a b with Eq => true | _ => false end.

Definition klt {K} `{KeyCmp K} (a b : K) : Prop := kcmp a b = Lt.

Fixpoint insert_key {K} `{KeyCmp K} (k : K) (ks : list K) : list K :=
  match ks with
  | [] => [k]
  | k' :: ks' =>
      match kcmp k k' with
      | Lt => k :: ks
      | Eq => ks
      | Gt => k' :: insert_key k ks'
      end
  end.

(** The distinct values of a column, ascending. *)
Definition unique_sorted {K} `{KeyCmp K} (l : list K) : list K :=
  fold_right insert_key [] l.

(** [Series.nunique()]. *)
Definition nunique {K} `{KeyCmp K} (l : list K) : nat :=
  List.length (unique_sorted l).

(** The values of a column that are present. *)
Fixpoint dropna {A} (l : list (option A)) : list A :=
  match l with
  | [] => []
  | Some a :: l' => a :: dropna l'
  | None :: l' => dropna l'
  end.

Definition has_key {K} `{KeyCmp K} {A} (key : A -> option K) (k : K) (r : A)
  : bool :=
  match key r with
  | Some k' => keqb k' k
  | None => false
  end.

(** [df.groupby(key)]: each distinct key, ascending, with its rows, in row
    order; rows whose key is missing belong to no group ([dropna=True]). *)
Definition groupby_dropna {K} `{KeyCmp K} {A} (key : A -> option K)
  (rows : list A) : list (K * list A) :=
  map (fun k => (k, filter (has_key key k) rows))
      (unique_sorted (dropna (map key rows))).

(** [groupby] on a column that has no missing value. *)
Definition groupby {K} `{KeyCmp K} {A} (key : A -> K) (rows : list A)
  : list (K * list A) :=
  groupby_dropna (fun r => Some (key r)) rows.

(** [.agg(...)]: one output row per group. *)
Definition agg {K A R} (mk : K -> list A -> R) (groups : list (K * list A))
  : list R :=
  map (fun g => mk (fst g) (snd g)) groups.

(** ** Sorting *)

(** [sort_values(by, ascending=False)] with the default sorting kind. *)
Class SortValues := sort_values : forall A : Type, (A -> Z) -> list A -> list A.
Arguments sort_values {_ A} by_ l : rename.

Definition descending {A} (by_ : A -> Z) (a b : A) : Prop := by_ b <= by_ a.

(** What [sort_values] promises whatever the kind: the rows, reordered,
    largest first. *)
Class SortValuesOk (S : SortValues) : Prop := {
  sort_values_perm : forall A (by_ : A -> Z) l,
    Permutation (sort_values by_ l) l;
  sort_values_sorted : forall A (by_ : A -> Z) l,
    StronglySorted (descending by_) (sort_values by_ l)
}.

(** A stable sort keeps rows with equal values in the order it found them. *)
Definition stable (S : SortValues) : Prop :=
  forall A (by_ : A -> Z) (v : Z) (l : list A),
    filter (fun r => by_ r =? v) (sort_values by_ l)
    = filter (fun r => by_ r =? v) l.

Fixpoint insert_desc {A} (by_ : A -> Z) (x : A) (l : list A) : list A :=
  match l with
  | [] => [x]
  | y :: l' => if by_ y <=? by_ x then x :: l else y :: insert_desc by_ x l'
  end.

(** Insertion sort, largest first: a stable routine, as [kind='stable']
    is. *)
Definition stable_sort : SortValues :=
  fun A by_ l => fold_right (insert_desc by_) [] l.

Fixpoint insert_asc {A} (by_ : A -> Z) (x : A) (l : list A) : list A :=
  match l with
  | [] => [x]
  | y :: l' => if by_ x <=? by_ y then x :: l else y :: insert_asc by_ x l'
  end.

(** Sort ascending, then reverse: largest first as well, with equal rows
    in the reverse of the order they were found in. *)
Definition reversing_sort : SortValues :=
  fun A by_ l => rev (fold_right (insert_asc by_) [] l).

(** [DataFrame.head(n)]: the first [n] rows; all but the last [-n] when
    [n] is negative. *)
Definition head {A} (n : Z) (l : list A) : list A :=
  if n <? 0 then firstn (List.length l - Z.to_nat (- n)) l
  else firstn (Z.to_nat n) l.

(** ** The sorting kernel

    [sort_values] hands its column to numpy's [argsort] with
    [kind='quicksort'].  This is numpy's portable kernel for it
    ([aquicksort_], with [aheapsort_] as its fallback): an introsort on an
    array of indices.  On some processors numpy replaces it by a
    vectorised kernel, which may leave equal values in another order. *)

Module Numpy.

(** [tosort] is the array of indices that the kernel permutes; a pointer
    into it is the position it points at. *)

Definition at_ (a : list nat) (i : Z) : nat := nth (Z.to_nat i) a 0%nat.

Fixpoint put (a : list nat) (i : nat) (x : nat) : list nat :=
  match a, i with
  | [], _ => []
  | _ :: a', O => x :: a'
  | y :: a', S i' => y :: put a' i' x
  end.

Definition set_ (a : list nat) (i : Z) (x : nat) : list nat :=
  put a (Z.to_nat i) x.

Definition swap (a : list nat) (i j : Z) : list nat :=
  set_ (set_ a i (at_ a j)) j (at_ a i).

Section Kernel.
(** The values that are compared; none of them is NaN. *)
Variable v : list Z.

Definition val (a : list nat) (i : Z) : Z := nth (at_ a i) v 0.
Definition val_of (x : nat) : Z := nth x v 0.

(** [do ++pi; while (v[*pi] < vp)] and [do --pj; while (vp < v[*pj])] *)
Fixpoint scan_up (fuel : nat) (a : list nat) (vp pi : Z) : Z :=
  match fuel with
  | O => pi
  | S fuel =>
      let pi := pi + 1 in
      if val a pi <? vp then scan_up fuel a vp pi else pi
  end.

Fixpoint scan_down (fuel : nat) (a : list nat) (vp pj : Z) : Z :=
  match fuel with
  | O => pj
  | S fuel =>
      let pj := pj - 1 in
      if vp <? val a pj then scan_down fuel a vp pj else pj
  end.

Fixpoint exchange (fuel : nat) (a : list nat) (vp pi pj : Z)
  : list nat * Z :=
  match fuel with
  | O => (a, pi)
  | S fuel =>
      let pi := scan_up (List.length a) a vp pi in
      let pj := scan_down (List.length a) a vp pj in
      if pi >=? pj then (a, pi) else exchange fuel (swap a pi pj) vp pi pj
  end.

(** Median of three, then the exchange loop around the pivot, which ends
    at [pi]. *)
Definition partition (a : list nat) (pl pr : Z) : list nat * Z :=
  let pm := pl + Z.shiftr (pr - pl) 1 in
  let a := if val a pm <? val a pl then swap a pm pl else a in
  let a := if val a pr <? val a pm then swap a pr pm else a in
  let a := if val a pm <? val a pl then swap a pm pl else a in
  let vp := val a pm in
  let pi := pl in
  let pj := pr - 1 in
  let a := swap a pm pj in
  let '(a, pi) := exchange (List.length a) a vp pi pj in
  let pk := pr - 1 in
  (swap a pi pk, pi).

Fixpoint shift (fuel : nat) (a : list nat) (vp pl pj : Z) : list nat * Z :=
  match fuel with
  | O => (a, pj)
  | S fuel =>
      if (pj >? pl) && (vp <? val a (pj - 1))
      then shift fuel (set_ a pj (at_ a (pj - 1))) vp pl (pj - 1)
      else (a, pj)
  end.

(** Insertion sort of the entries from [pl] to [pr]. *)
Fixpoint insertion (fuel : nat) (a : list nat) (pl pr pi : Z) : list nat :=
  match fuel with
  | O => a
  | S fuel =>
      if pi <=? pr then
        let vi := at_ a pi in
        let vp := val_of vi in
        let '(a, pj) := shift (List.length a) a vp pl pi in
        insertion fuel (set_ a pj vi) pl pr (pi + 1)
      else a
  end.

(** Heapsort of the [n] entries from [pl] on; the source indexes them
    from 1, entry [i] being at [pl - 1 + i]. *)
Fixpoint sift (fuel : nat) (a : list nat) (base n : Z) (tmp : nat) (i j : Z)
  : list nat :=
  match fuel with
  | O => set_ a (base + i) tmp
  | S fuel =>
      if j <=? n then
        let j := if (j <? n) && (val a (base + j) <? val a (base + j + 1))
                 then j + 1 else j in
        if val_of tmp <? val a (base + j)
        then sift fuel (set_ a (base + i) (at_ a (base + j))) base n tmp j
                  (j + j)
        else set_ a (base + i) tmp
      else set_ a (base + i) tmp
  end.

Fixpoint heapify (fuel : nat) (a : list nat) (base n l : Z) : list nat :=
  match fuel with
  | O => a
  | S fuel =>
      if l >? 0
      then heapify fuel (sift (List.length a) a base n (at_ a (base + l)) l
                              (Z.shiftl l 1))
                   base n (l - 1)
      else a
  end.

Fixpoint sortdown (fuel : nat) (a : list nat) (base n : Z) : list nat :=
  match fuel with
  | O => a
  | S fuel =>
      if n >? 1 then
        let tmp := at_ a (base + n) in
        let a := set_ a (base + n) (at_ a (base + 1)) in
        let n := n - 1 in
        sortdown fuel (sift (List.length a) a base n tmp 1 2) base n
      else a
  end.

Definition aheapsort (a : list nat) (pl n : Z) : list nat :=
  let base := pl - 1 in
  let a := heapify (List.length a) a base n (Z.shiftr n 1) in
  sortdown (List.length a) a base n.

Record frame := { f_pl : Z; f_pr : Z; f_depth : Z }.

(** [while ((pr - pl) > SMALL_QUICKSORT)]: partition, push the larger
    part with the depth left, go on with the smaller. *)
Fixpoint split_ranges (fuel : nat) (a : list nat) (pl pr cdepth : Z)
  (stack : list frame) : list nat * Z * Z * Z * list frame :=
  match fuel with
  | O => (a, pl, pr, cdepth, stack)
  | S fuel =>
      if pr - pl >? 16 then
        let '(a, pi) := partition a pl pr in
        let cdepth := cdepth - 1 in
        if pi - pl <? pr - pi
        then split_ranges fuel a pl (pi - 1) cdepth
                          (Build_frame (pi + 1) pr cdepth :: stack)
        else split_ranges fuel a (pi + 1) pr cdepth
                          (Build_frame pl (pi - 1) cdepth :: stack)
      else (a, pl, pr, cdepth, stack)
  end.

(** The outer loop: heapsort when the depth is used up, else partition
    down to short ranges and sort them by insertion; then the next range of
    the stack. *)
Fixpoint run (fuel : nat) (a : list nat) (pl pr cdepth : Z)
  (stack : list frame) : list nat :=
  match fuel with
  | O => a
  | S fuel =>
      let '(a, stack) :=
        if cdepth <? 0 then (aheapsort a pl (pr - pl + 1), stack)
        else
          let '(a, pl, pr, _, stack) :=
            split_ranges (List.length a) a pl pr cdepth stack in
          (insertion (List.length a) a pl pr (pl + 1), stack) in
      match stack with
      | [] => a
      | f :: stack => run fuel a (f_pl f) (f_pr f) (f_depth f) stack
      end
  end.

End Kernel.


End Numpy.




(** ** KPI *)

Inductive exn := ZeroDivisionError.

Inductive outcome (A : Type) := Returns (a : A) | Raises (e : exn).
Arguments Returns {A} a.
Arguments Raises {A} e.

Definition bind {A B} (m : outcome A) (f : A -> outcome B) : outcome B :=
  match m with
  | Returns a => f a
  | Raises e => Raises e
  end.

Notation "x <- m ;; k" := (bind m (fun x => k))
  (at level 61, m at next level, right associativity).

(** Division of two Python ints. *)
Definition int_truediv (a b : nat) : outcome Q :=
  match b with
  | O => Raises ZeroDivisionError
  | S _ => Returns (Z.of_nat a # Pos.of_nat b)
  end.

Definition has_status (s : order_status) (r : sale) : bool :=
  order_status_eqb (status r) s.

(** [df[df['status'] == 'Livrée']] *)
Definition df_delivered (df : dataframe) : dataframe :=
  filter (has_status Livree) df.

Record kpi_set := mk_kpis {
  chiffre_affaires : Z;
  profit_total : Z;
  marge_moyenne : fval;
  nombre_ventes : nat;
  panier_moyen : fval;
  nombre_clients : nat;
  ca_par_client : fval;
  taux_annulation : Q
}.

(** The [kpis] dictionary, from the three tables the function reads:
    the delivered rows, the cancelled rows and the whole table.  On a
    table without any row the division of the cancellation rate raises;
    when such a table holds no float column (a file with a header only) the
    division of [ca_par_client] is one of Python ints too and raises first,
    the same exception. *)
Definition kpis (delivered cancelled df : dataframe) : outcome kpi_set :=
  let chiffre_affaires := sum (map total_price delivered) in
  let profit_total := sum (map profit delivered) in
  let marge_moyenne := mean 100 (map margin_percent delivered) in
  let nombre_ventes := List.length delivered in
  let panier_moyen := mean 100 (map total_price delivered) in
  let nombre_clients := nunique (map customer_id delivered) in
  let ca_par_client :=
    true_divide (sum (map total_price delivered))
                (nunique (map customer_id delivered)) in
  t <- int_truediv (List.length cancelled) (List.length df) ;;
  Returns (mk_kpis chiffre_affaires profit_total marge_moyenne nombre_ventes
                   panier_moyen nombre_clients ca_par_client (t * 100)%Q).

Definition calculate_kpis (df : dataframe) : outcome kpi_set :=
  kpis (df_delivered df) (filter (has_status Annulee) df) df.

(** ** Aggregations by dimension *)

Module Category.
Record row := mk {
  key : string;
  CA_total : Z;
  CA_moyen : fval;
  Nb_ventes : nat;
  Profit_total : Z;
  Marge : fval;
  Quantite_totale : Z
}.
End Category.

Module Region.
Record row := mk {
  key : string;
  CA_total : Z;
  CA_moyen : fval;
  Profit : Z;
  Nb_commandes : nat;
  Nb_clients : nat
}.
End Region.

Module Channel.
Record row := mk {
  key : string;
  CA_total : Z;
  CA_moyen : fval;
  Profit : Z;
  Marge : fval;
  Nb_ventes : nat
}.
End Channel.

Module Product.
Record row := mk {
  key : string;
  CA_total : Z;
  Profit : Z;
  Marge : fval;
  Quantite_vendue : Z;
  Nb_commandes : nat
}.
End Product.

Module Trend.
Record row := mk {
  key : Z;
  CA : Z;
  Profit : Z;
  Nb_commandes : nat;
  Nb_clients : nat
}.
End Trend.

(** [groupby('category').agg({...}).round(2)] on the delivered rows. *)
Definition category_analysis (delivered : dataframe) : list Category.row :=
  agg (fun k g =>
         Category.mk k
           (round2_sum (sum (map total_price g)))
           (round2 (mean 100 (map total_price g)))
           (List.length g)
           (round2_sum (sum (map profit g)))
           (round2 (mean 100 (map margin_percent g)))
           (sum_int64 (map quantity g)))
      (groupby category delivered).

Definition analyze_by_category `{SortValues} (df : dataframe)
  : list Category.row :=
  sort_values Category.CA_total (category_analysis (df_delivered df)).

Definition region_analysis (delivered : dataframe) : list Region.row :=
  agg (fun k g =>
         Region.mk k
           (round2_sum (sum (map total_price g)))
           (round2 (mean 100 (map total_price g)))
           (round2_sum (sum (map profit g)))
           (List.length g)
           (nunique (map customer_id g)))
      (groupby region delivered).

Definition analyze_by_region `{SortValues} (df : dataframe)
  : list Region.row :=
  sort_values Region.CA_total (region_analysis (df_delivered df)).

Definition channel_analysis (delivered : dataframe) : list Channel.row :=
  agg (fun k g =>
         Channel.mk k
           (round2_sum (sum (map total_price g)))
           (round2 (mean 100 (map total_price g)))
           (round2_sum (sum (map profit g)))
           (round2 (mean 100 (map margin_percent g)))
           (List.length g))
      (groupby channel delivered).

Definition analyze_by_channel `{SortValues} (df : dataframe)
  : list Channel.row :=
  sort_values Channel.CA_total (channel_analysis (df_delivered df)).

Definition product_analysis (delivered : dataframe) : list Product.row :=
  agg (fun k g =>
         Product.mk k
           (round2_sum (sum (map total_price g)))
           (round2_sum (sum (map profit g)))
           (round2 (mean 100 (map margin_percent g)))
           (sum_int64 (map quantity g))
           (List.length g))
      (groupby product delivered).

Definition top_n_default : Z := 10.

(** [top_n = None] is the call that leaves the argument out. *)
Definition analyze_by_product `{SortValues} (df : dataframe)
  (top_n : option Z) : list Product.row :=
  let top_n := match top_n with Some n => n | None => top_n_default end in
  head top_n
       (sort_values Product.CA_total (product_analysis (df_delivered df))).

(** [df_delivered['year_month'] = df_delivered['date'].dt.to_period('M')] *)
Definition with_year_month (delivered : dataframe) : dataframe :=
  map (fun r => set_year_month r (Some (to_period_M (date r)))) delivered.

Definition monthly_trends (delivered : dataframe) : list Trend.row :=
  agg (fun k g =>
         Trend.mk k
           (round2_sum (sum (map total_price g)))
           (round2_sum (sum (map profit g)))
           (List.length g)
           (nunique (map customer_id g)))
      (groupby_dropna year_month delivered).

Definition analyze_time_trends (df : dataframe) : list Trend.row :=
  monthly_trends (with_year_month (df_delivered df)).

(** ** Customer segmentation *)

Inductive segment := VIP | Regulier | Occasionnel.

Definition segment_label (s : segment) : string :=
  match s with
  | VIP => "VIP"
  | Regulier => "Régulier"
  | Occasionnel => "Occasionnel"
  end.

#[export] Instance segment_cmp : KeyCmp segment :=
  fun a b => String.compare (segment_label a) (segment_label b).

Module Customer.
(** A row of [customer_metrics] before the [segment] column is set. *)
Record metrics := mk_metrics {
  key : string;
  derniere_commande : option civil_date;
  nb_commandes : Z;
  ca_total : Z;
  recence_jours : option Z
}.

Record row := mk { rfm : metrics; segment_of : segment }.
End Customer.

Module Summary.
Record row := mk {
  key : segment;
  ca_total_sum : Z;
  ca_total_mean : fval;
  nb_commandes_sum : Z;
  nb_commandes_mean : fval;
  recence_jours_mean : fval
}.
End Summary.

(** Subtraction of two timestamps, in days; NaT gives no value. *)
Definition days_between (latest d : option civil_date) : option Z :=
  match latest, d with
  | Some a, Some b => Some (to_ordinal a - to_ordinal b)
  | _, _ => None
  end.

Definition segment_customer (row : Customer.metrics) : segment :=
  if (Customer.nb_commandes row >? 5) || (Customer.ca_total row >? 200000)
  then VIP
  else if Customer.nb_commandes row >=? 3 then Regulier
  else Occasionnel.

(** [df_delivered['date'] = pd.to_datetime(df_delivered['date'])] *)
Definition with_datetime (delivered : dataframe) : dataframe :=
  map (fun r => set_date r (to_datetime (date r))) delivered.

(** The per-customer table, with its [recence_jours] and [segment]
    columns. *)
Definition customer_metrics (delivered : dataframe) : list Customer.row :=
  let max_date := date_max (map date delivered) in
  let customer_metrics :=
    agg (fun k g =>
           let derniere_commande := date_max (map date g) in
           Customer.mk_metrics k
             derniere_commande
             (Z.of_nat (List.length g))
             (round2_sum (sum (map total_price g)))
             (days_between max_date derniere_commande))
        (groupby customer_id delivered) in
  map (fun row => Customer.mk row (segment_customer row)) customer_metrics.

Definition segment_summary (customer_metrics : list Customer.row)
  : list Summary.row :=
  agg (fun k g =>
         let ca := map (fun r => Customer.ca_total (Customer.rfm r)) g in
         let nb := map (fun r => Customer.nb_commandes (Customer.rfm r)) g in
         let re :=
           dropna (map (fun r => Customer.recence_jours (Customer.rfm r)) g)
         in
         Summary.mk k
           (round2_sum (sum ca)) (round2 (mean 100 ca))
           (sum nb) (round2 (mean 1 nb))
           (round2 (mean 1 re)))
      (groupby Customer.segment_of customer_metrics).

Definition analyze_customer_segments (df : dataframe)
  : list Customer.row * list Summary.row :=
  let customer_metrics :=
    customer_metrics (with_datetime (df_delivered df)) in
  (customer_metrics, segment_summary customer_metrics).

(** ** Tables as objects

    A Python variable holds a reference to a table; [table[mask]] and
    [table.copy()] build a new table, [table[column] = ...] changes the
    table it is applied to.  The functions below follow the source
    statement by statement on a heap of tables. *)

Module Store.

Definition heap := list dataframe.
Definition ref := nat.

Definition M (A : Type) : Type := heap -> A * heap.

Definition ret {A} (a : A) : M A := fun h => (a, h).

Definition bind {A B} (m : M A) (f : A -> M B) : M B :=
  fun h => let (a, h') := m h in f a h'.

Notation "x <~ m ;; k" := (bind m (fun x => k))
  (at level 61, m at next level, right associativity).
Notation "m ;;; k" := (bind m (fun _ => k))
  (at level 61, right associativity).

Definition deref (r : ref) : M dataframe := fun h => (nth r h [], h).

Definition alloc (t : dataframe) : M ref :=
  fun h => (List.length h, h ++ [t]).

Fixpoint replace (r : ref) (t : dataframe) (h : heap) : heap :=
  match h, r with
  | [], _ => []
  | _ :: h', O => t :: h'
  | t' :: h', S r' => t' :: replace r' t h'
  end.

Definition assign (r : ref) (t : dataframe) : M unit :=
  fun h => (tt, replace r t h).

(** [table[mask]] *)
Definition getitem_mask (r : ref) (mask : sale -> bool) : M ref :=
  t <~ deref r ;; alloc (filter mask t).

(** [table.copy()] *)
Definition copy (r : ref) : M ref :=
  t <~ deref r ;; alloc t.

(** [table[column] = ...], the new column computed row by row. *)
Definition setitem (r : ref) (f : sale -> sale) : M unit :=
  t <~ deref r ;; assign r (map f t).

Definition calculate_kpis (df : ref) : M (outcome kpi_set) :=
  df_delivered <~ getitem_mask df (has_status Livree) ;;
  delivered <~ deref df_delivered ;;
  df_cancelled <~ getitem_mask df (has_status Annulee) ;;
  cancelled <~ deref df_cancelled ;;
  table <~ deref df ;;
  ret (kpis delivered cancelled table).

Definition analyze_by_category `{SortValues} (df : ref)
  : M (list Category.row) :=
  df_delivered <~ getitem_mask df (has_status Livree) ;;
  delivered <~ deref df_delivered ;;
  ret (sort_values Category.CA_total (category_analysis delivered)).

Definition analyze_by_region `{SortValues} (df : ref)
  : M (list Region.row) :=
  df_delivered <~ getitem_mask df (has_status Livree) ;;
  delivered <~ deref df_delivered ;;
  ret (sort_values Region.CA_total (region_analysis delivered)).

Definition analyze_by_channel `{SortValues} (df : ref)
  : M (list Channel.row) :=
  df_delivered <~ getitem_mask df (has_status Livree) ;;
  delivered <~ deref df_delivered ;;
  ret (sort_values Channel.CA_total (channel_analysis delivered)).

Definition analyze_by_product `{SortValues} (df : ref) (top_n : option Z)
  : M (list Product.row) :=
  let top_n := match top_n with Some n => n | None => top_n_default end in
  df_delivered <~ getitem_mask df (has_status Livree) ;;
  delivered <~ deref df_delivered ;;
  ret (head top_n
            (sort_values Product.CA_total (product_analysis delivered))).

Definition analyze_time_trends (df : ref) : M (list Trend.row) :=
  df_delivered <~ getitem_mask df (has_status Livree) ;;
  setitem df_delivered
          (fun r => set_year_month r (Some (to_period_M (date r)))) ;;;
  delivered <~ deref df_delivered ;;
  ret (monthly_trends delivered).

Definition analyze_customer_segments (df : ref)
  : M (list Customer.row * list Summary.row) :=
  selected <~ getitem_mask df (has_status Livree) ;;
  df_delivered <~ copy selected ;;
  setitem df_delivered (fun r => set_date r (to_datetime (date r))) ;;;
  delivered <~ deref df_delivered ;;
  let customer_metrics := customer_metrics delivered in
  ret (customer_metrics, segment_summary customer_metrics).

(** The analysis calls, and what each returns. *)
Inductive call :=
| Kpis
| By_category
| By_region
| By_channel
| By_product (top_n : option Z)
| Time_trends
| Customer_segments.

Inductive result :=
| Kpi_result (k : outcome kpi_set)
| Category_result (t : list Category.row)
| Region_result (t : list Region.row)
| Channel_result (t : list Channel.row)
| Product_result (t : list Product.row)
| Trend_result (t : list Trend.row)
| Segment_result (t : list Customer.row * list Summary.row).

Definition fmap {A B} (f : A -> B) (m : M A) : M B :=
  a <~ m ;; ret (f a).

Definition run `{SortValues} (c : call) (df : ref) : M result :=
  match c with
  | Kpis => fmap Kpi_result (calculate_kpis df)
  | By_category => fmap Category_result (analyze_by_category df)
  | By_region => fmap Region_result (analyze_by_region df)
  | By_channel => fmap Channel_result (analyze_by_channel df)
  | By_product n => fmap Product_result (analyze_by_product df n)
  | Time_trends => fmap Trend_result (analyze_time_trends df)
  | Customer_segments => fmap Segment_result (analyze_customer_segments df)
  end.

End Store.

(** The same calls on table values. *)
Definition value_of `{SortValues} (c : Store.call) (df : dataframe)
  : Store.result :=
  match c with
  | Store.Kpis => Store.Kpi_result (calculate_kpis df)
  | Store.By_category => Store.Category_result (analyze_by_category df)
  | Store.By_region => Store.Region_result (analyze_by_region df)
  | Store.By_channel => Store.Channel_result (analyze_by_channel df)
  | Store.By_product n => Store.Product_result (analyze_by_product df n)
  | Store.Time_trends => Store.Trend_result (analyze_time_trends df)
  | Store.Customer_segments =>
      Store.Segment_result (analyze_customer_segments df)
  end.

(** ** Report *)

(** The dictionary that [generate_analysis_report] returns. *)
Record report := mk_report {
  report_kpis : kpi_set;
  report_category : list Category.row;
  report_region : list Region.row;
  report_channel : list Channel.row;
  report_product : list Product.row
}.

(** The analyses run in the order of the source; the customer segments are
    computed for the printed summary and are not part of the result.  What
    the function prints is left out. *)
Definition generate_analysis_report `{SortValues} (df : dataframe)
  : outcome report :=
  kpis <- calculate_kpis df ;;
  let cat_analysis := analyze_by_category df in
  let region_analysis := analyze_by_region df in
  let channel_analysis := analyze_by_channel df in
  let product_analysis := analyze_by_product df (Some 5) in
  let segments := analyze_customer_segments df in
  Returns (mk_report kpis cat_analysis region_analysis channel_analysis
                     product_analysis).

(** The same function on the heap of tables: each analysis is the call of
    [Store], on the one table the report was given; an exception of the KPI
    call ends the report there. *)
Definition generate_analysis_report_on `{SortValues} (df : Store.ref)
  : Store.M (outcome report) :=
  Store.bind (Store.calculate_kpis df) (fun kpis =>
  match kpis with
  | Raises e => Store.ret (Raises e)
  | Returns kpis =>
      Store.bind (Store.analyze_by_category df) (fun cat_analysis =>
      Store.bind (Store.analyze_by_region df) (fun region_analysis =>
      Store.bind (Store.analyze_by_channel df) (fun channel_analysis =>
      Store.bind (Store.analyze_by_product df (Some 5))
                 (fun product_analysis =>
      Store.bind (Store.analyze_customer_segments df) (fun segments =>
      Store.ret (Returns (mk_report kpis cat_analysis region_analysis
                                    channel_analysis product_analysis)))))))
  end).

(** The script's entry point, from what [load_sales_data] returned: the
    table, or [None] when the file could not be read. *)
Definition main `{SortValues} (df : option dataframe)
  : outcome (option report) :=
  match df with
  | Some df => report <- generate_analysis_report df ;; Returns (Some report)
  | None => Returns None
  end.

(** The segments from the least to the most valuable. *)
Definition segment_rank (s : segment) : Z :=
  match s with
  | Occasionnel => 0
  | Regulier => 1
  | VIP => 2
  end.

(** ** Statements *)

(** The segmentation rule in the specification's words: VIP above 5 orders
    or above 2000.00 of spend, else Regular from 3 to 5 orders, else
    Occasional. *)
Definition segment_rule (order_count spend : Z) : segment :=
  if (5 <? order_count) || (200000 <? spend) then VIP
  else if (3 <=? order_count) && (order_count <=? 5) then Regulier
  else Occasionnel.


(** Rows with equal values sit in ascending key order. *)
Definition ties_by_key {R K} `{KeyCmp K} (rkey : R -> K) (col : R -> Z)
  (l : list R) : Prop :=
  StronglySorted (fun a b => col a = col b -> klt (rkey a) (rkey b)) l.

(** ** Sample tables *)

Definition sample (id customer prod cat : string) (d : civil_date)
  (total : Z) (st : order_status) : sale :=
  mk_sale id d customer prod cat 1 total total (total / 2) (total / 2)
          (total - total / 2) 5000 "Nord" "Online" st None.

Definition s_laptop : sale :=
  sample "ORD-1" "C1000" "Laptop" "Electronique" (mk_date 2024 3 5)
         90000 Livree.
Definition s_mouse : sale :=
  sample "ORD-2" "C1001" "Mouse" "Accessoires" (mk_date 2024 4 1)
         3000 Livree.
Definition s_cancelled : sale :=
  sample "ORD-3" "C1000" "Mouse" "Accessoires" (mk_date 2024 4 9)
         3000 Annulee.
Definition s_tablet : sale :=
  sample "ORD-4" "C1002" "Tablet" "Electronique" (mk_date 2024 4 20)
         3000 Livree.

(** Two delivered orders of the same amount, in two categories and of two
    products. *)
Definition tie_table : dataframe := [s_mouse; s_tablet].

Definition six_laptops : dataframe :=
  [s_laptop; s_laptop; s_laptop; s_laptop; s_laptop; s_laptop; s_mouse].

Definition three_products : dataframe :=
  [s_mouse; s_laptop; s_cancelled; s_tablet; s_laptop].

Definition s_mouse_cancelled : sale :=
  sample "ORD-5" "C1001" "Mouse" "Accessoires" (mk_date 2024 4 2)
         3000 Annulee.

(** One customer with four delivered and two cancelled orders. *)
Definition four_delivered_two_cancelled : dataframe :=
  [s_mouse; s_mouse_cancelled; s_mouse; s_mouse; s_mouse_cancelled; s_mouse].

(** One delivered order for each name, of the amount given with it. *)
Definition one_order_each (orders : list (string * Z)) : dataframe :=
  map (fun o =>
         sample "ORD-6" "C1003" (fst o) (fst o) (mk_date 2024 5 1) (snd o)
                Livree)
      orders.


Definition eleven_products : dataframe :=
  one_order_each
    (map (fun name => (name, 1000))
         ["P01"; "P02"; "P03"; "P04"; "P05"; "P06"; "P07"; "P08"; "P09";
          "P10"; "P11"]%string).

(** * Properties *)

(** ** Rounding *)

Lemma round2_sum_id (z : Z) : round2_sum z = z.
Proof.
  unfold round2_sum, rint.
  assert (Hf : Qfloor ((z # 100) * 100) = z).
  { unfold Qfloor, Qmult; simpl.
    replace (Z.pos (100 * 1)) with 100 by reflexivity.
    apply Z.div_mul; discriminate. }
  rewrite Hf.
  assert (Hlt : ((z # 100) * 100 - inject_Z z ?= 1 # 2)%Q = Lt).
  { unfold Qcompare, Qminus, Qplus, Qmult, Qopp, inject_Z; simpl.
    apply Z.compare_lt_iff. lia. }
  rewrite Hlt. reflexivity.
Qed.

(** ** Key orders *)

#[export] Instance string_order : KeyOrder string.
Proof.
  split.
  - intros a b; split.
    + apply String.compare_eq_iff.
    + intros ->. apply String_as_OT.cmp_eq. reflexivity.
  - intros a b. apply String.compare_antisym.
  - intros a b c Hab Hbc.
    apply String_as_OT.cmp_lt. apply String_as_OT.cmp_lt in Hab, Hbc.
    eapply String_as_OT.lt_trans; eassumption.
Qed.

#[export] Instance Z_order : KeyOrder Z.
Proof.
  split.
  - intros a b. apply Z.compare_eq_iff.
  - intros a b. apply Z.compare_antisym.
  - intros a b c Hab Hbc. unfold kcmp, Z_cmp in *.
    rewrite Z.compare_lt_iff in *. lia.
Qed.

Lemma segment_label_inj (a b : segment) :
  segment_label a = segment_label b -> a = b.
Proof. destruct a, b; simpl; intros E; try reflexivity; discriminate E. Qed.

#[export] Instance segment_order : KeyOrder segment.
Proof.
  split.
  - intros a b; unfold kcmp, segment_cmp; split.
    + intros E. apply segment_label_inj. now apply (kcmp_eq (K := string)).
    + intros ->. now apply (kcmp_eq (K := string)).
  - intros a b. apply (kcmp_antisym (K := string)).
  - intros a b c. apply (kcmp_trans (K := string)).
Qed.

Section KeyFacts.
Context {K : Type} `{KeyOrder K}.

Lemma kcmp_refl (a : K) : kcmp a a = Eq.
Proof. now apply kcmp_eq. Qed.

Lemma keqb_eq (a b : K) : keqb a b = true <-> a = b.
Proof.
  unfold keqb. rewrite <- kcmp_eq.
  destruct (kcmp a b); split; intros E; try reflexivity; discriminate E.
Qed.

Lemma keqb_refl (a : K) : keqb a a = true.
Proof. now apply keqb_eq. Qed.

Lemma kcmp_gt_lt (a b : K) : kcmp a b = Gt -> kcmp b a = Lt.
Proof. intros E. rewrite kcmp_antisym, E. reflexivity. Qed.

Lemma klt_irrefl (a : K) : ~ klt a a.
Proof. unfold klt. rewrite kcmp_refl. discriminate. Qed.

Lemma insert_key_In (k x : K) (ks : list K) :
  In x (insert_key k ks) <-> x = k \/ In x ks.
Proof.
  induction ks as [|k' ks IH]; simpl.
  - intuition.
  - destruct (kcmp k k') eqn:E; simpl.
    + apply kcmp_eq in E. subst k'. intuition.
    + intuition.
    + rewrite IH. intuition.
Qed.

Lemma insert_key_sorted (k : K) (ks : list K) :
  StronglySorted klt ks -> StronglySorted klt (insert_key k ks).
Proof.
  induction 1 as [|k' ks Hs IH Hall]; simpl.
  - repeat constructor.
  - destruct (kcmp k k') eqn:E.
    + now constructor.
    + constructor; [now constructor|].
      constructor; [exact E|].
      eapply Forall_impl; [|exact Hall].
      intros x Hx. unfold klt in *. eapply kcmp_trans; eassumption.
    + constructor; [exact IH|].
      apply Forall_forall. intros x Hx.
      apply insert_key_In in Hx. destruct Hx as [->|Hx].
      * now apply kcmp_gt_lt.
      * rewrite Forall_forall in Hall. now apply Hall.
Qed.

Lemma unique_sorted_In (x : K) (l : list K) :
  In x (unique_sorted l) <-> In x l.
Proof.
  induction l as [|a l IH]; simpl; [tauto|].
  rewrite insert_key_In, IH. intuition.
Qed.

Lemma unique_sorted_sorted (l : list K) :
  StronglySorted klt (unique_sorted l).
Proof.
  induction l; simpl; [constructor | now apply insert_key_sorted].
Qed.

Lemma sorted_NoDup (ks : list K) : StronglySorted klt ks -> NoDup ks.
Proof.
  induction 1 as [|k ks Hs IH Hall]; constructor; [|exact IH].
  intros Hin. rewrite Forall_forall in Hall.
  exact (klt_irrefl k (Hall k Hin)).
Qed.

Lemma unique_sorted_NoDup (l : list K) : NoDup (unique_sorted l).
Proof. apply sorted_NoDup, unique_sorted_sorted. Qed.

End KeyFacts.

(** ** Sums *)

Lemma sum_app (l l' : list Z) : sum (l ++ l') = sum l + sum l'.
Proof. induction l; simpl; lia. Qed.

Lemma sum_perm (l l' : list Z) : Permutation l l' -> sum l = sum l'.
Proof. induction 1; simpl; lia. Qed.

Lemma sum_map_add {A} (f g : A -> Z) (l : list A) :
  sum (map (fun a => f a + g a) l) = sum (map f l) + sum (map g l).
Proof. induction l; simpl; lia. Qed.

Lemma sum_map_zero {A} (l : list A) : sum (map (fun _ => 0) l) = 0.
Proof. induction l; simpl; lia. Qed.

(** ** Grouping *)

Section GroupFacts.
Context {K : Type} `{KeyOrder K} {A : Type}.
Variable key : A -> option K.

Lemma dropna_In (k : K) (l : list (option K)) :
  In k (dropna l) <-> In (Some k) l.
Proof.
  induction l as [|[a|] l IH]; simpl; [tauto | |].
  - rewrite IH. split; intros [E|E]; auto; left; congruence.
  - rewrite IH. split; [auto | intros [E|E]; [discriminate | exact E]].
Qed.

Lemma has_key_true (k : K) (r : A) :
  has_key key k r = true <-> key r = Some k.
Proof.
  unfold has_key. destruct (key r) as [k'|].
  - rewrite keqb_eq. split; congruence.
  - split; discriminate.
Qed.

Lemma groupby_dropna_keys (rows : list A) :
  map fst (groupby_dropna key rows) = unique_sorted (dropna (map key rows)).
Proof.
  unfold groupby_dropna. rewrite map_map. simpl. apply map_id.
Qed.

Lemma groupby_dropna_In (k : K) (g : list A) (rows : list A) :
  In (k, g) (groupby_dropna key rows) ->
  g = filter (has_key key k) rows /\ exists r, In r rows /\ key r = Some k.
Proof.
  unfold groupby_dropna. rewrite in_map_iff.
  intros (k' & E & Hin). inversion E; subst. split; [reflexivity|].
  apply unique_sorted_In, dropna_In, in_map_iff in Hin.
  destruct Hin as (r & Hr & Hin). eauto.
Qed.

(** The one key of a row selects it once among distinct keys. *)
Lemma sum_one_key (r : A) (k0 : K) (v : Z) (ks : list K) :
  key r = Some k0 -> NoDup ks -> In k0 ks ->
  sum (map (fun k => if has_key key k r then v else 0) ks) = v.
Proof.
  intros Hr. induction 1 as [|k ks Hnin Hnd IH]; simpl; [tauto|].
  intros [->|Hin].
  - rewrite (proj2 (has_key_true k0 r) Hr).
    rewrite (map_ext_in _ (fun _ => 0)), sum_map_zero; [lia|].
    intros k Hk. destruct (has_key key k r) eqn:E; [|reflexivity].
    apply has_key_true in E. congruence.
  - rewrite (IH Hin).
    destruct (has_key key k r) eqn:E; [|lia].
    apply has_key_true in E. congruence.
Qed.

Lemma partition_sum (f : A -> Z) (ks : list K) (rows : list A) :
  NoDup ks ->
  (forall r, In r rows -> exists k, key r = Some k /\ In k ks) ->
  sum (map (fun k => sum (map f (filter (has_key key k) rows))) ks)
  = sum (map f rows).
Proof.
  intros Hnd. induction rows as [|r rows IH]; intros Hcov; simpl.
  - apply sum_map_zero.
  - rewrite (map_ext _
      (fun k => (if has_key key k r then f r else 0)
                + sum (map f (filter (has_key key k) rows)))).
    + rewrite sum_map_add, IH by (intros; apply Hcov; now right).
      destruct (Hcov r (or_introl eq_refl)) as (k0 & Hk0 & Hin).
      now rewrite (sum_one_key r k0 (f r) ks Hk0 Hnd Hin).
    + intros k. destruct (has_key key k r); reflexivity.
Qed.

(** A column that sums [f] over each group sums [f] over the table. *)
Lemma agg_sum_column {R} (mk : K -> list A -> R) (col : R -> Z)
  (f : A -> Z) (rows : list A) :
  (forall k g, col (mk k g) = sum (map f g)) ->
  (forall r, In r rows -> key r <> None) ->
  sum (map col (agg mk (groupby_dropna key rows))) = sum (map f rows).
Proof.
  intros Hcol Hkey. unfold agg, groupby_dropna. rewrite !map_map. simpl.
  rewrite (map_ext _
    (fun k => sum (map f (filter (has_key key k) rows))))
    by (intros; apply Hcol).
  apply partition_sum; [apply unique_sorted_NoDup|].
  intros r Hr. destruct (key r) as [k|] eqn:E.
  - exists k. split; [reflexivity|].
    apply unique_sorted_In, dropna_In. rewrite <- E. now apply in_map.
  - now destruct (Hkey r Hr).
Qed.

(** The output rows of an aggregation carry the group keys, ascending. *)
Lemma agg_keys_sorted {R} (mk : K -> list A -> R) (rkey : R -> K)
  (rows : list A) :
  (forall k g, rkey (mk k g) = k) ->
  StronglySorted klt (map rkey (agg mk (groupby_dropna key rows))).
Proof.
  intros Hk. unfold agg. rewrite map_map.
  rewrite (map_ext _ fst) by (intros; apply Hk).
  rewrite groupby_dropna_keys. apply unique_sorted_sorted.
Qed.

End GroupFacts.

(** ** Sorting routines *)

Section SortFacts.
Context {A : Type}.
Variable by_ : A -> Z.

Lemma insert_desc_perm (x : A) (l : list A) :
  Permutation (insert_desc by_ x l) (x :: l).
Proof.
  induction l as [|y l IH]; simpl; [reflexivity|].
  destruct (by_ y <=? by_ x); [reflexivity|].
  rewrite IH. apply perm_swap.
Qed.

Lemma insert_desc_sorted (x : A) (l : list A) :
  StronglySorted (descending by_) l ->
  StronglySorted (descending by_) (insert_desc by_ x l).
Proof.
  induction 1 as [|y l Hs IH Hall]; simpl.
  - repeat constructor.
  - destruct (by_ y <=? by_ x) eqn:E.
    + apply Z.leb_le in E. constructor; [now constructor|].
      constructor; [exact E|].
      eapply Forall_impl; [|exact Hall].
      unfold descending. intros; lia.
    + apply Z.leb_gt in E. constructor; [exact IH|].
      eapply Permutation_Forall; [apply Permutation_sym, insert_desc_perm|].
      constructor; [unfold descending; lia | exact Hall].
Qed.

Lemma insert_desc_stable (v : Z) (x : A) (l : list A) :
  filter (fun r => by_ r =? v) (insert_desc by_ x l)
  = filter (fun r => by_ r =? v) (x :: l).
Proof.
  induction l as [|y l IH]; [reflexivity|].
  cbn [insert_desc]. destruct (by_ y <=? by_ x) eqn:E; [reflexivity|].
  apply Z.leb_gt in E. cbn [filter] in *. rewrite IH.
  destruct (by_ x =? v) eqn:Ex, (by_ y =? v) eqn:Ey; try reflexivity.
  apply Z.eqb_eq in Ex, Ey. lia.
Qed.

Lemma insert_asc_perm (x : A) (l : list A) :
  Permutation (insert_asc by_ x l) (x :: l).
Proof.
  induction l as [|y l IH]; simpl; [reflexivity|].
  destruct (by_ x <=? by_ y); [reflexivity|].
  rewrite IH. apply perm_swap.
Qed.

Lemma insert_asc_sorted (x : A) (l : list A) :
  StronglySorted (fun a b => by_ a <= by_ b) l ->
  StronglySorted (fun a b => by_ a <= by_ b) (insert_asc by_ x l).
Proof.
  induction 1 as [|y l Hs IH Hall]; simpl.
  - repeat constructor.
  - destruct (by_ x <=? by_ y) eqn:E.
    + apply Z.leb_le in E. constructor; [now constructor|].
      constructor; [exact E|].
      eapply Forall_impl; [|exact Hall]. intros; simpl in *; lia.
    + apply Z.leb_gt in E. constructor; [exact IH|].
      eapply Permutation_Forall; [apply Permutation_sym, insert_asc_perm|].
      constructor; [lia | exact Hall].
Qed.

Lemma sorted_snoc (R : A -> A -> Prop) (l : list A) (a : A) :
  StronglySorted R l -> Forall (fun x => R x a) l ->
  StronglySorted R (l ++ [a]).
Proof.
  induction 1 as [|y l Hs IH Hall]; intros Ha; simpl.
  - repeat constructor.
  - inversion Ha; subst. constructor; [now apply IH|].
    apply Forall_app. split; [exact Hall | now constructor].
Qed.

Lemma sorted_rev (R : A -> A -> Prop) (l : list A) :
  StronglySorted R l -> StronglySorted (fun a b => R b a) (rev l).
Proof.
  induction 1 as [|y l Hs IH Hall]; simpl; [constructor|].
  apply sorted_snoc; [exact IH|].
  apply Forall_rev. exact Hall.
Qed.

End SortFacts.

Lemma stable_sort_ok : SortValuesOk stable_sort.
Proof.
  split; intros A by_ l; unfold sort_values, stable_sort.
  - induction l as [|x l IH]; simpl; [reflexivity|].
    rewrite insert_desc_perm. now constructor.
  - induction l as [|x l IH]; simpl; [constructor|].
    now apply insert_desc_sorted.
Qed.

Lemma stable_sort_stable : stable stable_sort.
Proof.
  intros A by_ v l. unfold sort_values, stable_sort.
  induction l as [|x l IH]; [reflexivity|].
  cbn [fold_right]. rewrite insert_desc_stable.
  cbn [filter]. now rewrite IH.
Qed.

Lemma reversing_sort_ok : SortValuesOk reversing_sort.
Proof.
  split; intros A by_ l; unfold sort_values, reversing_sort.
  - rewrite <- Permutation_rev.
    induction l as [|x l IH]; simpl; [reflexivity|].
    rewrite insert_asc_perm. now constructor.
  - apply (sorted_rev (fun a b => by_ a <= by_ b)).
    induction l as [|x l IH]; simpl; [constructor|].
    now apply insert_asc_sorted.
Qed.

(** ** KPI on a table without delivered rows *)

Lemma int_truediv_returns (a b : nat) :
  b <> O -> int_truediv a b = Returns (Z.of_nat a # Pos.of_nat b).
Proof. destruct b; [congruence | reflexivity]. Qed.

Lemma calculate_kpis_returns (df : dataframe) :
  df <> [] ->
  let d := df_delivered df in
  calculate_kpis df
  = Returns
      (mk_kpis (sum (map total_price d)) (sum (map profit d))
               (mean 100 (map margin_percent d)) (List.length d)
               (mean 100 (map total_price d)) (nunique (map customer_id d))
               (true_divide (sum (map total_price d))
                            (nunique (map customer_id d)))
               ((Z.of_nat (List.length (filter (has_status Annulee) df))
                 # Pos.of_nat (List.length df)) * 100)%Q).
Proof.
  intros Hne. unfold calculate_kpis, kpis.
  rewrite int_truediv_returns; [reflexivity|].
  destruct df; [congruence | discriminate].
Qed.

(** C1, as the claim states it, fails: on a table whose only order was
    cancelled, [calculate_kpis] returns normally and both [panier_moyen] and
    [ca_par_client] are NaN, the value the claim rules out. *)
Lemma kpis_undefined_counterexample :
  df_delivered [s_cancelled] = []
  /\ exists k, calculate_kpis [s_cancelled] = Returns k
               /\ panier_moyen k = NaN /\ ca_par_client k = NaN.
Proof.
  split; [reflexivity|].
  eexists. split; [reflexivity|]. split; reflexivity.
Qed.

(** C1 (amended): with no delivered row, [calculate_kpis] signals nothing
    of its own.  On a table that has rows it returns, with [panier_moyen],
    [ca_par_client] and [marge_moyenne] all NaN next to zero totals and
    counts; on a table with no row at all the cancellation rate divides by
    zero and the call raises ZeroDivisionError. *)
Theorem kpis_without_delivered (df : dataframe) :
  df_delivered df = [] ->
  match df with
  | [] => calculate_kpis df = Raises ZeroDivisionError
  | _ :: _ =>
      exists t, calculate_kpis df = Returns (mk_kpis 0 0 NaN 0 NaN 0 NaN t)
  end.
Proof.
  intros Hd. destruct df as [|r df]; [reflexivity|].
  eexists. rewrite calculate_kpis_returns by discriminate.
  cbv zeta. rewrite Hd. reflexivity.
Qed.

Lemma kpis_without_delivered_witness :
  df_delivered [s_cancelled] = []
  /\ exists t, calculate_kpis [s_cancelled]
               = Returns (mk_kpis 0 0 NaN 0 NaN 0 NaN t).
Proof.
  split; [reflexivity|].
  exact (kpis_without_delivered [s_cancelled] eq_refl).
Defined.

(** ** KPI and the other statuses *)

(** C5, as the claim states it, fails: two tables with the same delivered
    rows, one with a cancelled order more, differ in [taux_annulation]. *)
Lemma kpis_delivered_only_counterexample :
  df_delivered [s_laptop] = df_delivered [s_laptop; s_cancelled]
  /\ exists k k',
       calculate_kpis [s_laptop] = Returns k
       /\ calculate_kpis [s_laptop; s_cancelled] = Returns k'
       /\ (taux_annulation k == 0)%Q /\ (taux_annulation k' == 50)%Q.
Proof.
  split; [reflexivity|].
  do 2 eexists. repeat split; reflexivity.
Qed.

(** C5 (amended): every metric but [taux_annulation] is computed over the
    delivered rows only, so two tables with the same delivered rows agree
    on them; [taux_annulation] is 100 times the share of cancelled rows
    among all rows, whatever their status. *)
Theorem kpis_over_delivered (df df' : dataframe) (k k' : kpi_set) :
  df_delivered df = df_delivered df' ->
  calculate_kpis df = Returns k ->
  calculate_kpis df' = Returns k' ->
  chiffre_affaires k = chiffre_affaires k'
  /\ profit_total k = profit_total k'
  /\ marge_moyenne k = marge_moyenne k'
  /\ nombre_ventes k = nombre_ventes k'
  /\ panier_moyen k = panier_moyen k'
  /\ nombre_clients k = nombre_clients k'
  /\ ca_par_client k = ca_par_client k'
  /\ chiffre_affaires k = sum (map total_price (df_delivered df))
  /\ nombre_ventes k = List.length (df_delivered df)
  /\ taux_annulation k
     = ((Z.of_nat (List.length (filter (has_status Annulee) df))
         # Pos.of_nat (List.length df)) * 100)%Q.
Proof.
  intros Hd Hk Hk'.
  assert (Hne : df <> []) by (intros ->; discriminate Hk).
  assert (Hne' : df' <> []) by (intros ->; discriminate Hk').
  rewrite calculate_kpis_returns in Hk, Hk' by assumption.
  cbv zeta in Hk, Hk'. rewrite <- Hd in Hk'.
  injection Hk as <-. injection Hk' as <-. simpl.
  repeat split; reflexivity.
Qed.

Lemma kpis_over_delivered_witness :
  exists k k',
    calculate_kpis [s_laptop] = Returns k
    /\ calculate_kpis [s_laptop; s_cancelled] = Returns k'
    /\ panier_moyen k = panier_moyen k'
    /\ ca_par_client k = ca_par_client k'.
Proof.
  do 2 eexists. split; [reflexivity|]. split; [reflexivity|].
  pose proof (kpis_over_delivered [s_laptop] [s_laptop; s_cancelled] _ _
                eq_refl eq_refl eq_refl) as H.
  split; apply H.
Defined.

(** ** Segmentation *)

Lemma segment_customer_rule (m : Customer.metrics) :
  segment_customer m
  = segment_rule (Customer.nb_commandes m) (Customer.ca_total m).
Proof.
  unfold segment_customer, segment_rule.
  rewrite !Z.gtb_ltb, Z.geb_leb.
  destruct (5 <? Customer.nb_commandes m) eqn:E5; [reflexivity|].
  destruct (200000 <? Customer.ca_total m); [reflexivity|]. simpl.
  apply Z.ltb_ge in E5. apply Z.leb_le in E5. rewrite E5.
  now rewrite andb_true_r.
Qed.

Lemma set_date_same (r : sale) : set_date r (to_datetime (date r)) = r.
Proof. now destruct r. Qed.

Lemma with_datetime_id (d : dataframe) : with_datetime d = d.
Proof.
  unfold with_datetime. rewrite (map_ext _ id) by apply set_date_same.
  apply map_id.
Qed.

Lemma keqb_string (a b : string) : keqb a b = String.eqb a b.
Proof.
  destruct (String.eqb_spec a b) as [->|Hne].
  - apply keqb_refl.
  - destruct (keqb a b) eqn:E; [|reflexivity].
    apply keqb_eq in E. contradiction.
Qed.

Lemma groupby_In {K} `{KeyOrder K} {A} (key : A -> K) (k : K)
  (g rows : list A) :
  In (k, g) (groupby key rows) ->
  g = filter (fun r => keqb (key r) k) rows
  /\ exists r, In r rows /\ key r = k.
Proof.
  intros Hin. apply groupby_dropna_In in Hin.
  destruct Hin as (-> & r & Hr & E). split; [reflexivity|].
  exists r. split; [exact Hr | congruence].
Qed.

Lemma groupby_has_key {K} `{KeyOrder K} {A} (key : A -> K) (r : A)
  (rows : list A) :
  In r rows ->
  In (key r, filter (fun x => keqb (key x) (key r)) rows) (groupby key rows).
Proof.
  intros Hr. unfold groupby, groupby_dropna. apply in_map_iff.
  exists (key r). split; [reflexivity|].
  apply unique_sorted_In, dropna_In.
  apply in_map_iff. now exists r.
Qed.

(** The rows of [customer_metrics], one per customer of the table. *)
Lemma customer_metrics_In (d : dataframe) (c : Customer.row) :
  In c (customer_metrics d) ->
  let orders :=
    filter (fun r => String.eqb (customer_id r)
                                (Customer.key (Customer.rfm c))) d in
  orders <> []
  /\ Customer.nb_commandes (Customer.rfm c) = Z.of_nat (List.length orders)
  /\ Customer.ca_total (Customer.rfm c) = sum (map total_price orders)
  /\ Customer.segment_of c = segment_customer (Customer.rfm c).
Proof.
  unfold customer_metrics, agg. cbv zeta. rewrite map_map, in_map_iff.
  intros ([k g] & <- & Hin). simpl.
  apply groupby_In in Hin. destruct Hin as (-> & r & Hr & Hk).
  rewrite (filter_ext _ (fun r => keqb (customer_id r) k))
    by (intros; symmetry; apply keqb_string).
  rewrite round2_sum_id. repeat split.
  intros E. assert (Hin : In r (filter (fun r => keqb (customer_id r) k) d)).
  { apply filter_In. split; [exact Hr|]. now apply keqb_eq. }
  rewrite E in Hin. exact Hin.
Qed.

Lemma dropna_map_Some {A B} (f : A -> B) (l : list A) :
  dropna (map (fun a => Some (f a)) l) = map f l.
Proof. induction l; simpl; congruence. Qed.

Lemma groupby_keys {K} `{KeyOrder K} {A} (key : A -> K) (rows : list A) :
  map fst (groupby key rows) = unique_sorted (map key rows).
Proof.
  unfold groupby. now rewrite groupby_dropna_keys, dropna_map_Some.
Qed.

Lemma customer_metrics_keys (d : dataframe) :
  map (fun c => Customer.key (Customer.rfm c)) (customer_metrics d)
  = unique_sorted (map customer_id d).
Proof.
  unfold customer_metrics, agg. cbv zeta. rewrite !map_map. simpl.
  apply (groupby_keys customer_id).
Qed.

Lemma NoDup_map_inj {A B} (f : A -> B) (l : list A) (a b : A) :
  NoDup (map f l) -> In a l -> In b l -> f a = f b -> a = b.
Proof.
  induction l as [|x l IH]; simpl; [tauto|].
  intros Hnd. inversion Hnd as [|? ? Hnin Hnd']; subst.
  intros [->|Ha] [->|Hb] E; auto.
  - destruct Hnin. rewrite E. now apply in_map.
  - destruct Hnin. rewrite <- E. now apply in_map.
Qed.

Lemma filter_filter {A} (p q : A -> bool) (l : list A) :
  filter p (filter q l) = filter (fun x => q x && p x) l.
Proof.
  induction l as [|a l IH]; simpl; [reflexivity|].
  destruct (q a); simpl; [|exact IH]. destruct (p a); congruence.
Qed.

(** C2: the segment of a customer is the ordered rule applied to the
    number and the summed total price of the customer's orders whose status
    is delivered, orders of another status counting for nothing (amounts in
    hundredths: 2000.00 is 200000); 6 orders with 500.00 give VIP, 1 order
    with 2500.00 gives VIP, 4 orders with 300.00 give Regular. *)
Theorem segment_by_count_and_spend :
  (forall m, segment_customer m
             = segment_rule (Customer.nb_commandes m) (Customer.ca_total m))
  /\ (forall k d r,
        segment_customer (Customer.mk_metrics k d 6 50000 r) = VIP)
  /\ (forall k d r,
        segment_customer (Customer.mk_metrics k d 1 250000 r) = VIP)
  /\ (forall k d r,
        segment_customer (Customer.mk_metrics k d 4 30000 r) = Regulier)
  /\ forall df c,
       In c (fst (analyze_customer_segments df)) ->
       let orders :=
         filter (fun r =>
                   match status r with
                   | Livree =>
                       String.eqb (customer_id r)
                                  (Customer.key (Customer.rfm c))
                   | En_cours | Annulee => false
                   end) df in
       orders <> []
       /\ Customer.segment_of c
          = segment_rule (Z.of_nat (List.length orders))
                         (sum (map total_price orders)).
Proof.
  split; [exact segment_customer_rule|].
  repeat (split; [reflexivity|]).
  intros df c Hin. simpl in Hin. rewrite with_datetime_id in Hin.
  apply customer_metrics_In in Hin. cbv zeta in Hin.
  unfold df_delivered in Hin. rewrite filter_filter in Hin.
  rewrite (filter_ext _
             (fun r =>
                match status r with
                | Livree =>
                    String.eqb (customer_id r) (Customer.key (Customer.rfm c))
                | En_cours | Annulee => false
                end)) in Hin
    by (intros r; unfold has_status; destruct (status r); reflexivity).
  destruct Hin as (Hne & Hnb & Hca & Hseg).
  split; [exact Hne|].
  now rewrite Hseg, segment_customer_rule, Hnb, Hca.
Qed.

Lemma segment_by_count_and_spend_witness :
  exists c, In c (fst (analyze_customer_segments four_delivered_two_cancelled))
            /\ Customer.key (Customer.rfm c) = "C1001"%string
            /\ Customer.segment_of c = segment_rule 4 12000
            /\ Customer.segment_of c = Regulier.
Proof.
  eexists. split; [left; reflexivity|]. split; [reflexivity|].
  split; [|reflexivity].
  refine (proj2 (proj2 (proj2 (proj2 (proj2 segment_by_count_and_spend)))
                   four_delivered_two_cancelled _ _)).
  left; reflexivity.
Defined.

(** C6: without a delivered row, segmentation returns an empty customer
    table and an empty summary. *)
Theorem segments_without_delivered (df : dataframe) :
  df_delivered df = [] -> analyze_customer_segments df = ([], []).
Proof.
  intros Hd. unfold analyze_customer_segments. rewrite Hd. reflexivity.
Qed.

Lemma segments_without_delivered_witness :
  analyze_customer_segments [s_cancelled] = ([], []).
Proof. exact (segments_without_delivered [s_cancelled] eq_refl). Defined.

(** ** Tables as objects: what a call reads and writes *)

Lemma nth_end (h : Store.heap) (t : dataframe) :
  nth (List.length h) (h ++ [t]) [] = t.
Proof. now rewrite nth_middle. Qed.

Lemma replace_end (h : Store.heap) (t t' : dataframe) :
  Store.replace (List.length h) t' (h ++ [t]) = h ++ [t'].
Proof. induction h; simpl; congruence. Qed.

Lemma nth_old (h ext : Store.heap) (r : Store.ref) :
  (r < List.length h)%nat -> nth r (h ++ ext) [] = nth r h [].
Proof. intros Hr. now apply app_nth1. Qed.

Lemma getitem_mask_run (r : Store.ref) (mask : sale -> bool)
  (h : Store.heap) :
  Store.getitem_mask r mask h
  = (List.length h, h ++ [filter mask (nth r h [])]).
Proof. reflexivity. Qed.

Lemma setitem_new_run (f : sale -> sale) (h : Store.heap) (t : dataframe) :
  Store.setitem (List.length h) f (h ++ [t]) = (tt, h ++ [map f t]).
Proof.
  unfold Store.setitem, Store.bind, Store.deref, Store.assign.
  now rewrite nth_end, replace_end.
Qed.

Lemma calculate_kpis_run (df : Store.ref) (h : Store.heap) :
  (df < List.length h)%nat ->
  exists ext,
    Store.calculate_kpis df h = (calculate_kpis (nth df h []), h ++ ext).
Proof.
  intros Hdf.
  exists [df_delivered (nth df h []);
          filter (has_status Annulee) (nth df h [])].
  unfold Store.calculate_kpis, Store.bind.
  rewrite getitem_mask_run. unfold Store.deref at 1. rewrite nth_end.
  rewrite getitem_mask_run, nth_old by exact Hdf.
  unfold Store.deref, Store.ret. rewrite nth_end, <- app_assoc.
  rewrite nth_old by exact Hdf. reflexivity.
Qed.

Lemma analyze_time_trends_run (df : Store.ref) (h : Store.heap) :
  Store.analyze_time_trends df h
  = (analyze_time_trends (nth df h []),
     h ++ [with_year_month (df_delivered (nth df h []))]).
Proof.
  unfold Store.analyze_time_trends, Store.bind.
  rewrite getitem_mask_run, setitem_new_run.
  unfold Store.deref, Store.ret. now rewrite nth_end.
Qed.

Lemma analyze_customer_segments_run (df : Store.ref) (h : Store.heap) :
  Store.analyze_customer_segments df h
  = (analyze_customer_segments (nth df h []),
     h ++ [df_delivered (nth df h []);
           with_datetime (df_delivered (nth df h []))]).
Proof.
  unfold Store.analyze_customer_segments, Store.bind.
  rewrite getitem_mask_run.
  unfold Store.copy, Store.bind, Store.deref at 1, Store.alloc.
  rewrite nth_end.
  replace (List.length (h ++ [filter (has_status Livree) (nth df h [])]))
    with (List.length (h ++ [df_delivered (nth df h [])])) by reflexivity.
  fold (df_delivered (nth df h [])).
  rewrite setitem_new_run.
  unfold Store.deref, Store.ret. rewrite nth_end, <- app_assoc.
  reflexivity.
Qed.

Section StoreRuns.
Context `{SortValues}.

(** The calls that select the delivered rows and read them. *)
Ltac select_and_read :=
  unfold Store.bind; rewrite getitem_mask_run;
  unfold Store.deref, Store.ret; now rewrite nth_end.

Lemma analyze_by_category_run (df : Store.ref) (h : Store.heap) :
  Store.analyze_by_category df h
  = (analyze_by_category (nth df h []), h ++ [df_delivered (nth df h [])]).
Proof. unfold Store.analyze_by_category. select_and_read. Qed.

Lemma analyze_by_region_run (df : Store.ref) (h : Store.heap) :
  Store.analyze_by_region df h
  = (analyze_by_region (nth df h []), h ++ [df_delivered (nth df h [])]).
Proof. unfold Store.analyze_by_region. select_and_read. Qed.

Lemma analyze_by_channel_run (df : Store.ref) (h : Store.heap) :
  Store.analyze_by_channel df h
  = (analyze_by_channel (nth df h []), h ++ [df_delivered (nth df h [])]).
Proof. unfold Store.analyze_by_channel. select_and_read. Qed.

Lemma analyze_by_product_run (df : Store.ref) (n : option Z)
  (h : Store.heap) :
  Store.analyze_by_product df n h
  = (analyze_by_product (nth df h []) n,
     h ++ [df_delivered (nth df h [])]).
Proof. unfold Store.analyze_by_product. select_and_read. Qed.

(** Every call returns the value computed from the table it was given and
    only adds tables to the heap. *)
Lemma run_value (c : Store.call) (df : Store.ref) (h : Store.heap) :
  (df < List.length h)%nat ->
  exists ext, Store.run c df h = (value_of c (nth df h []), h ++ ext).
Proof.
  intros Hdf. destruct c; unfold Store.run, Store.fmap, Store.bind.
  - destruct (calculate_kpis_run df h Hdf) as (ext & ->). now exists ext.
  - rewrite analyze_by_category_run. eexists; reflexivity.
  - rewrite analyze_by_region_run. eexists; reflexivity.
  - rewrite analyze_by_channel_run. eexists; reflexivity.
  - rewrite analyze_by_product_run. eexists; reflexivity.
  - rewrite analyze_time_trends_run. eexists; reflexivity.
  - rewrite analyze_customer_segments_run. eexists; reflexivity.
Qed.

End StoreRuns.

Lemma delivered_In (df : dataframe) (r : sale) :
  In r df -> status r = Livree -> In r (df_delivered df).
Proof.
  intros Hin Hs. apply filter_In. split; [exact Hin|].
  unfold has_status. now rewrite Hs.
Qed.

(** C7: every customer with a delivered order has one row, hence one
    segment, in the customer table, the segment being VIP, Regular or
    Occasional; and two runs on tables with the same rows, wherever the
    tables live and whatever else the heap holds, return the same
    assignment. *)
Theorem segmentation_total_deterministic :
  (forall df r,
     In r df -> status r = Livree ->
     exists c,
       In c (fst (analyze_customer_segments df))
       /\ Customer.key (Customer.rfm c) = customer_id r
       /\ (Customer.segment_of c = VIP \/ Customer.segment_of c = Regulier
           \/ Customer.segment_of c = Occasionnel)
       /\ forall c',
            In c' (fst (analyze_customer_segments df)) ->
            Customer.key (Customer.rfm c') = customer_id r -> c' = c)
  /\ (forall (h h' : Store.heap) (df df' : Store.ref),
        nth df h [] = nth df' h' [] ->
        fst (Store.analyze_customer_segments df h)
        = fst (Store.analyze_customer_segments df' h')).
Proof.
  split.
  - intros df r Hin Hs. simpl. rewrite with_datetime_id.
    pose proof (customer_metrics_keys (df_delivered df)) as Hkeys.
    assert (Hk : In (customer_id r)
                    (map (fun c => Customer.key (Customer.rfm c))
                         (customer_metrics (df_delivered df)))).
    { rewrite Hkeys. apply unique_sorted_In, in_map.
      now apply delivered_In. }
    apply in_map_iff in Hk. destruct Hk as (c & Hc & Hcin).
    exists c. repeat split; try assumption.
    + destruct (Customer.segment_of c); auto.
    + intros c' Hin' Hc'.
      apply (NoDup_map_inj (fun c => Customer.key (Customer.rfm c))
                           (customer_metrics (df_delivered df)));
        try assumption; [|congruence].
      rewrite Hkeys. apply unique_sorted_NoDup.
  - intros h h' df df' E.
    rewrite !analyze_customer_segments_run. cbn [fst]. now rewrite E.
Qed.

Lemma segmentation_total_deterministic_witness :
  exists c,
    In c (fst (analyze_customer_segments [s_cancelled; s_mouse]))
    /\ Customer.key (Customer.rfm c) = "C1001"%string.
Proof.
  destruct (proj1 segmentation_total_deterministic
              [s_cancelled; s_mouse] s_mouse
              (or_intror (or_introl eq_refl)) eq_refl)
    as (c & Hin & Hk & _).
  exists c. split; [exact Hin | exact Hk].
Defined.

(** C9: a call returns the value computed from the rows of the table it
    was given, and leaves that table, like every table that existed before
    the call, as it was: the working tables it fills are new ones. *)
Theorem analysis_leaves_input_unchanged `{SortValues} (c : Store.call)
  (df : Store.ref) (h h' : Store.heap) (res : Store.result) :
  (df < List.length h)%nat ->
  Store.run c df h = (res, h') ->
  res = value_of c (nth df h [])
  /\ nth df h' [] = nth df h []
  /\ firstn (List.length h) h' = h.
Proof.
  intros Hdf Hrun. destruct (run_value c df h Hdf) as (ext & E).
  rewrite E in Hrun. injection Hrun as <- <-.
  split; [reflexivity|]. split.
  - now apply nth_old.
  - rewrite firstn_app, Nat.sub_diag, firstn_all. simpl.
    apply app_nil_r.
Qed.

Lemma analysis_leaves_input_unchanged_witness :
  let h := [[s_laptop; s_cancelled; s_mouse]] in
  let h' := snd (@Store.run stable_sort Store.Time_trends 0%nat h) in
  nth 0 h' [] = [s_laptop; s_cancelled; s_mouse]
  /\ List.length h' = 2%nat.
Proof.
  split; [|reflexivity].
  refine (proj1 (proj2 (@analysis_leaves_input_unchanged stable_sort
            Store.Time_trends 0%nat [[s_laptop; s_cancelled; s_mouse]]
            _ _ _ eq_refl))).
  simpl; lia.
Defined.

(** ** Order of the output rows *)

Section SortedFacts.
Context {A : Type}.
Variable R : A -> A -> Prop.

Lemma firstn_subset (n : nat) (l : list A) (x : A) :
  In x (firstn n l) -> In x l.
Proof.
  intros Hx. rewrite <- (firstn_skipn n l). apply in_or_app. now left.
Qed.

Lemma sorted_firstn (n : nat) (l : list A) :
  StronglySorted R l -> StronglySorted R (firstn n l).
Proof.
  intros Hs. revert n. induction Hs as [|a l Hs IH Hall]; intros [|n]; simpl;
    try constructor.
  - apply IH.
  - apply Forall_forall. intros x Hx. rewrite Forall_forall in Hall.
    apply Hall. eapply firstn_subset; eassumption.
Qed.

Lemma sorted_head (n : Z) (l : list A) :
  StronglySorted R l -> StronglySorted R (head n l).
Proof. intros Hs. unfold head. destruct (n <? 0); now apply sorted_firstn. Qed.

Lemma sorted_filter (p : A -> bool) (l : list A) :
  StronglySorted R l -> StronglySorted R (filter p l).
Proof.
  induction 1 as [|a l Hs IH Hall]; simpl; [constructor|].
  destruct (p a); [|exact IH]. constructor; [exact IH|].
  apply Forall_forall. intros x Hx. apply filter_In in Hx.
  rewrite Forall_forall in Hall. now apply Hall.
Qed.

Lemma sorted_app_pairs (l1 l2 : list A) (a b : A) :
  StronglySorted R (l1 ++ l2) -> In a l1 -> In b l2 -> R a b.
Proof.
  induction l1 as [|x l1 IH]; simpl; [tauto|].
  intros Hs. inversion Hs as [|? ? Hs' Hall]; subst.
  intros [->|Ha] Hb.
  - rewrite Forall_forall in Hall. apply Hall, in_or_app. now right.
  - now apply IH.
Qed.

Lemma sorted_pair (l1 l2 l3 : list A) (a b : A) :
  StronglySorted R (l1 ++ a :: l2 ++ b :: l3) -> R a b.
Proof.
  intros Hs.
  apply (sorted_app_pairs (l1 ++ a :: l2) (b :: l3)).
  - now rewrite <- app_assoc.
  - apply in_or_app. right. now left.
  - now left.
Qed.

Lemma sorted_of_pairs (l : list A) :
  (forall l1 a l2 b l3, l = l1 ++ a :: l2 ++ b :: l3 -> R a b) ->
  StronglySorted R l.
Proof.
  induction l as [|x l IH]; intros Hp; constructor.
  - apply IH. intros l1 a l2 b l3 ->. now apply (Hp (x :: l1) a l2 b l3).
  - apply Forall_forall. intros b Hb.
    destruct (in_split _ _ Hb) as (l2 & l3 & ->).
    now apply (Hp [] x l2 b l3).
Qed.

End SortedFacts.

Lemma sorted_map {A B} (f : A -> B) (R : B -> B -> Prop) (l : list A) :
  StronglySorted R (map f l) ->
  StronglySorted (fun a b => R (f a) (f b)) l.
Proof.
  induction l as [|a l IH]; simpl; intros Hs; [constructor|].
  inversion Hs as [|? ? Hs' Hall]; subst. constructor; [now apply IH|].
  rewrite Forall_forall in *. intros x Hx. apply Hall. now apply in_map.
Qed.

Lemma stable_ties {R K} `{KeyCmp K} (rkey : R -> K) (col : R -> Z)
  (table out : list R) :
  StronglySorted klt (map rkey table) ->
  (forall v, filter (fun r => col r =? v) out
             = filter (fun r => col r =? v) table) ->
  ties_by_key rkey col out.
Proof.
  intros Hs Hst. apply sorted_of_pairs.
  intros l1 a l2 b l3 -> Hab.
  pose proof (sorted_filter _ (fun r => col r =? col a) _
                (sorted_map rkey klt table Hs)) as Hf.
  rewrite <- Hst in Hf.
  rewrite filter_app in Hf. cbn [filter] in Hf.
  rewrite Z.eqb_refl, filter_app in Hf. cbn [filter] in Hf.
  rewrite <- Hab, Z.eqb_refl in Hf.
  exact (sorted_pair _ _ _ _ _ _ Hf).
Qed.

(** ** Totals by dimension *)

Lemma sorted_total `{SortValuesOk} {R} (col : R -> Z) (l : list R) :
  sum (map col (sort_values col l)) = sum (map col l).
Proof. apply sum_perm, Permutation_map, sort_values_perm. Qed.

Lemma category_total (d : dataframe) :
  sum (map Category.CA_total (category_analysis d))
  = sum (map total_price d).
Proof.
  apply (agg_sum_column (fun r => Some (category r))); [|discriminate].
  intros k g. apply round2_sum_id.
Qed.

Lemma region_total (d : dataframe) :
  sum (map Region.CA_total (region_analysis d)) = sum (map total_price d).
Proof.
  apply (agg_sum_column (fun r => Some (region r))); [|discriminate].
  intros k g. apply round2_sum_id.
Qed.

Lemma channel_total (d : dataframe) :
  sum (map Channel.CA_total (channel_analysis d)) = sum (map total_price d).
Proof.
  apply (agg_sum_column (fun r => Some (channel r))); [|discriminate].
  intros k g. apply round2_sum_id.
Qed.

Lemma product_total (d : dataframe) :
  sum (map Product.CA_total (product_analysis d)) = sum (map total_price d).
Proof.
  apply (agg_sum_column (fun r => Some (product r))); [|discriminate].
  intros k g. apply round2_sum_id.
Qed.

Lemma with_year_month_prices (d : dataframe) :
  map total_price (with_year_month d) = map total_price d.
Proof. unfold with_year_month. now rewrite map_map. Qed.

Lemma monthly_total (d : dataframe) :
  sum (map Trend.CA (monthly_trends (with_year_month d)))
  = sum (map total_price d).
Proof.
  rewrite <- with_year_month_prices.
  apply (agg_sum_column year_month).
  - intros k g. apply round2_sum_id.
  - unfold with_year_month. intros r Hr. apply in_map_iff in Hr.
    destruct Hr as (r0 & <- & _). discriminate.
Qed.

Lemma head_all {A} (n : Z) (l : list A) :
  Z.of_nat (List.length l) <= n -> head n l = l.
Proof.
  intros Hn. unfold head. destruct (n <? 0) eqn:E; [lia|].
  apply firstn_all2. lia.
Qed.

(** C4, as the claim states it, fails for the product dimension: with
    eleven products of one delivered order of 10.00 each, the default call
    of [analyze_by_product] returns ten groups, which add up to 100.00 of
    the 110.00 delivered. *)
Lemma product_totals_counterexample :
  df_delivered eleven_products <> []
  /\ sum (map total_price (df_delivered eleven_products)) = 11000
  /\ List.length (@analyze_by_product stable_sort eleven_products None)
     = 10%nat
  /\ sum (map Product.CA_total
              (@analyze_by_product stable_sort eleven_products None))
     = 10000.
Proof.
  split; [discriminate|]. split; [reflexivity|].
  split; vm_compute; reflexivity.
Qed.

(** C4 (amended): for the category, region, channel and month dimension
    the summed total price of the groups of the output adds up to the total
    price of the delivered rows.  For the product dimension the groups add
    up before the cut to the first [top_n] rows, and the output adds up
    whenever [top_n] leaves no group out. *)
Theorem grouped_totals_partition `{SortValuesOk} (df : dataframe) :
  df_delivered df <> [] ->
  let total := sum (map total_price (df_delivered df)) in
  sum (map Category.CA_total (analyze_by_category df)) = total
  /\ sum (map Region.CA_total (analyze_by_region df)) = total
  /\ sum (map Channel.CA_total (analyze_by_channel df)) = total
  /\ sum (map Product.CA_total (product_analysis (df_delivered df))) = total
  /\ (forall n,
        Z.of_nat (List.length (product_analysis (df_delivered df))) <= n ->
        sum (map Product.CA_total (analyze_by_product df (Some n))) = total)
  /\ sum (map Trend.CA (analyze_time_trends df)) = total.
Proof.
  intros _ total. subst total.
  unfold analyze_by_category, analyze_by_region, analyze_by_channel,
    analyze_by_product, analyze_time_trends.
  rewrite !sorted_total.
  split; [apply category_total|].
  split; [apply region_total|].
  split; [apply channel_total|].
  split; [apply product_total|].
  split; [|apply monthly_total].
  intros n Hn. rewrite head_all.
  - rewrite sorted_total. apply product_total.
  - now rewrite (Permutation_length (sort_values_perm _ _ _)).
Qed.

Lemma grouped_totals_partition_witness :
  sum (map Category.CA_total
           (@analyze_by_category stable_sort
              [s_laptop; s_cancelled; s_mouse; s_tablet])) = 96000
  /\ sum (map Trend.CA
              (analyze_time_trends
                 [s_laptop; s_cancelled; s_mouse; s_tablet])) = 96000.
Proof.
  pose proof (@grouped_totals_partition stable_sort stable_sort_ok
                [s_laptop; s_cancelled; s_mouse; s_tablet]) as H.
  split; apply H; discriminate.
Defined.

(** C3, as the claim states it, fails: two categories with the same summed
    total price come out next to each other, so the order is not strictly
    descending. *)
Lemma strictly_descending_counterexample :
  map Category.CA_total (@analyze_by_category stable_sort tie_table)
  = [3000; 3000]
  /\ ~ StronglySorted
         (fun a b => Category.CA_total b < Category.CA_total a)
         (@analyze_by_category stable_sort tie_table).
Proof.
  split; [reflexivity|].
  intros Hs. inversion Hs as [|a l _ Hall]; subst.
  inversion Hall as [|b l' Hlt _]; subst.
  revert Hlt. unfold Category.CA_total. rewrite !round2_sum_id.
  cbn. lia.
Qed.

(** C3 (amended): the category, region, channel and product outputs are in
    descending order of summed total price, groups with equal sums next to
    each other; the monthly output is in strictly ascending order of its
    year-month key. *)
Theorem outputs_sorted `{SortValuesOk} (df : dataframe) :
  StronglySorted (descending Category.CA_total) (analyze_by_category df)
  /\ StronglySorted (descending Region.CA_total) (analyze_by_region df)
  /\ StronglySorted (descending Channel.CA_total) (analyze_by_channel df)
  /\ (forall n,
        StronglySorted (descending Product.CA_total)
                       (analyze_by_product df n))
  /\ StronglySorted Z.lt (map Trend.key (analyze_time_trends df)).
Proof.
  repeat split; try apply sort_values_sorted.
  - intros n. apply sorted_head, sort_values_sorted.
  - apply (agg_keys_sorted year_month). reflexivity.
Qed.

Lemma outputs_sorted_witness :
  StronglySorted (descending Category.CA_total)
                 (@analyze_by_category stable_sort
                    [s_mouse; s_cancelled; s_laptop])
  /\ map Category.CA_total
         (@analyze_by_category stable_sort [s_mouse; s_cancelled; s_laptop])
     = [90000; 3000].
Proof.
  split; [|reflexivity].
  exact (proj1 (@outputs_sorted stable_sort stable_sort_ok
                  [s_mouse; s_cancelled; s_laptop])).
Defined.

(** ** Ties *)






(** ** The best-selling products *)

(** C10: for [top_n >= 0] the product output has at most [top_n] rows, the
    first [top_n] of the descending order: no group that was left out has a
    greater summed total price than one that was kept.  A call without
    [top_n] is the call with [top_n = 10]. *)
Theorem top_products `{SortValuesOk} (df : dataframe) (n : Z) :
  0 <= n ->
  let table := product_analysis (df_delivered df) in
  let out := analyze_by_product df (Some n) in
  Z.of_nat (List.length out) <= n
  /\ List.length out = Nat.min (Z.to_nat n) (List.length table)
  /\ StronglySorted (descending Product.CA_total) out
  /\ (exists rest,
        Permutation (out ++ rest) table
        /\ forall a b,
             In a out -> In b rest ->
             Product.CA_total b <= Product.CA_total a)
  /\ analyze_by_product df None = analyze_by_product df (Some 10).
Proof.
  intros Hn table out.
  assert (Hout : out = firstn (Z.to_nat n)
                         (sort_values Product.CA_total table)).
  { subst out. unfold analyze_by_product, head.
    destruct (n <? 0) eqn:E; [lia | reflexivity]. }
  pose proof (sort_values_perm _ Product.CA_total table) as Hperm.
  pose proof (sort_values_sorted _ Product.CA_total table) as Hsorted.
  assert (Hlen : List.length out
                 = Nat.min (Z.to_nat n) (List.length table)).
  { rewrite Hout, length_firstn. now rewrite (Permutation_length Hperm). }
  split; [lia|]. split; [exact Hlen|]. split.
  { rewrite Hout. now apply sorted_firstn. }
  split; [|reflexivity].
  exists (skipn (Z.to_nat n) (sort_values Product.CA_total table)).
  rewrite Hout. split.
  - now rewrite firstn_skipn.
  - intros a b Ha Hb.
    apply (sorted_app_pairs (descending Product.CA_total)
             (firstn (Z.to_nat n) (sort_values Product.CA_total table))
             (skipn (Z.to_nat n) (sort_values Product.CA_total table)) a b);
      [|exact Ha | exact Hb].
    now rewrite firstn_skipn.
Qed.

Lemma top_products_witness :
  map (fun r => (Product.key r, Product.CA_total r))
      (@analyze_by_product stable_sort three_products (Some 2))
  = [("Laptop"%string, 180000); ("Mouse"%string, 3000)]
  /\ Z.of_nat (List.length
                 (@analyze_by_product stable_sort three_products (Some 2)))
     <= 2.
Proof.
  split; [reflexivity|].
  refine (proj1 (@top_products stable_sort stable_sort_ok three_products 2
                   _)).
  lia.
Defined.

(** * Further properties of the analyser *)

(** ** Counting distinct values *)

Section CountFacts.
Context {K : Type} `{KeyOrder K}.

Lemma insert_key_length (k : K) (ks : list K) :
  (List.length (insert_key k ks) <= S (List.length ks))%nat.
Proof.
  induction ks as [|k' ks IH]; simpl; [lia|].
  destruct (kcmp k k'); simpl; lia.
Qed.

Lemma nunique_le_length (l : list K) : (nunique l <= List.length l)%nat.
Proof.
  unfold nunique. induction l as [|k l IH]; simpl; [lia|].
  pose proof (insert_key_length k (unique_sorted l)). lia.
Qed.

Lemma nunique_pos (l : list K) : l <> [] -> (1 <= nunique l)%nat.
Proof.
  intros Hne. destruct l as [|k l]; [congruence|].
  assert (Hin : In k (unique_sorted (k :: l)))
    by (apply unique_sorted_In; now left).
  unfold nunique. destruct (unique_sorted (k :: l)); [destruct Hin|].
  simpl; lia.
Qed.

(** A strictly ascending list is determined by its elements. *)
Lemma sorted_same_elements (l l' : list K) :
  StronglySorted klt l -> StronglySorted klt l' ->
  (forall k, In k l <-> In k l') -> l = l'.
Proof.
  intros Hs. revert l'.
  induction Hs as [|a l Hs IH Ha]; intros l' Hs' Hiff.
  - destruct l' as [|b l']; [reflexivity|].
    destruct (proj2 (Hiff b) (or_introl eq_refl)).
  - destruct Hs' as [|b l' Hs' Hb].
    { destruct (proj1 (Hiff a) (or_introl eq_refl)). }
    rewrite Forall_forall in Ha, Hb.
    assert (E : a = b).
    { destruct (proj1 (Hiff a) (or_introl eq_refl)) as [E|Hin]; [now symmetry|].
      destruct (proj2 (Hiff b) (or_introl eq_refl)) as [E|Hin']; [exact E|].
      exfalso. apply (klt_irrefl a).
      unfold klt in *. eapply kcmp_trans; [apply Ha, Hin' | apply Hb, Hin]. }
    subst b. f_equal. apply IH; [exact Hs'|].
    intros k. split; intros Hin.
    + destruct (proj1 (Hiff k) (or_intror Hin)) as [<-|Hin']; [|exact Hin'].
      destruct (klt_irrefl _ (Ha _ Hin)).
    + destruct (proj2 (Hiff k) (or_intror Hin)) as [<-|Hin']; [|exact Hin'].
      destruct (klt_irrefl _ (Hb _ Hin)).
Qed.

Lemma unique_sorted_perm (l l' : list K) :
  Permutation l l' -> unique_sorted l = unique_sorted l'.
Proof.
  intros Hp. apply sorted_same_elements; try apply unique_sorted_sorted.
  intros k. rewrite !unique_sorted_In.
  split; apply Permutation_in; [exact Hp | now apply Permutation_sym].
Qed.

End CountFacts.

Lemma filter_length_bound {A} (p : A -> bool) (l : list A) :
  (List.length (filter p l) <= List.length l)%nat.
Proof. induction l as [|a l IH]; simpl; [lia|]. destruct (p a); simpl; lia. Qed.

Lemma pos_of_nat_Z (n : nat) : n <> O -> Z.pos (Pos.of_nat n) = Z.of_nat n.
Proof.
  intros Hn. destruct n; [congruence|].
  rewrite <- Pos.of_nat_succ. now rewrite Zpos_P_of_succ_nat, Nat2Z.inj_succ.
Qed.

(** ** KPI *)

(** X1: [calculate_kpis] raises exactly on a table without rows, and then
    ZeroDivisionError; on every other table it returns a KPI set. *)
Theorem calculate_kpis_raises_iff_empty (df : dataframe) :
  (df = [] <-> calculate_kpis df = Raises ZeroDivisionError)
  /\ (df <> [] <-> exists k, calculate_kpis df = Returns k).
Proof.
  destruct df as [|r df].
  - split; split; try reflexivity; try congruence.
    intros (k & Hk). discriminate Hk.
  - rewrite calculate_kpis_returns by discriminate.
    split; split; try discriminate; eauto.
Qed.

(** X2: with at least one delivered row the three averages are numbers:
    [panier_moyen] is the revenue over the number of sales, [ca_par_client]
    the revenue over the number of customers, which lies between 1 and the
    number of sales. *)
Theorem kpis_defined_with_delivered (df : dataframe) :
  df_delivered df <> [] ->
  exists k,
    calculate_kpis df = Returns k
    /\ (1 <= nombre_clients k <= nombre_ventes k)%nat
    /\ panier_moyen k
       = Num (chiffre_affaires k # 100 * Pos.of_nat (nombre_ventes k))
    /\ ca_par_client k
       = Num (chiffre_affaires k # 100 * Pos.of_nat (nombre_clients k))
    /\ exists q, marge_moyenne k = Num q.
Proof.
  intros Hd.
  assert (Hne : df <> []) by (intros ->; now apply Hd).
  eexists. split; [now apply calculate_kpis_returns|].
  cbn [nombre_clients nombre_ventes panier_moyen ca_par_client
       chiffre_affaires marge_moyenne].
  assert (Hc : (1 <= nunique (map customer_id (df_delivered df)))%nat).
  { apply nunique_pos. destruct (df_delivered df); [congruence|discriminate]. }
  pose proof (nunique_le_length (map customer_id (df_delivered df))) as Hle.
  rewrite length_map in Hle.
  split; [lia|].
  unfold mean, true_divide.
  destruct (df_delivered df) as [|r d] eqn:E; [congruence|].
  cbn [map]. split; [now rewrite <- !map_cons, length_map|].
  split; [|eexists; reflexivity].
  rewrite <- !map_cons.
  destruct (nunique (map customer_id (r :: d))); [lia | reflexivity].
Qed.

Lemma kpis_defined_with_delivered_witness :
  exists k,
    calculate_kpis [s_laptop; s_cancelled; s_mouse] = Returns k
    /\ panier_moyen k = Num (93000 # 200).
Proof.
  destruct (kpis_defined_with_delivered [s_laptop; s_cancelled; s_mouse])
    as (k & Hk & _ & Hp & _); [discriminate|].
  exists k. split; [exact Hk|].
  rewrite Hp. injection Hk as <-. reflexivity.
Defined.

(** X3: the cancellation rate is a percentage, between 0 and 100. *)
Theorem taux_annulation_bounds (df : dataframe) (k : kpi_set) :
  calculate_kpis df = Returns k ->
  (0 <= taux_annulation k /\ taux_annulation k <= 100)%Q.
Proof.
  intros Hk.
  assert (Hne : df <> []) by (intros ->; discriminate Hk).
  rewrite calculate_kpis_returns in Hk by exact Hne. injection Hk as <-.
  cbn [taux_annulation].
  pose proof (filter_length_bound (has_status Annulee) df) as Hle.
  assert (Hlen : List.length df <> O) by (destruct df; [congruence|discriminate]).
  unfold Qle, Qmult; cbn [Qnum Qden].
  rewrite Pos.mul_1_r, pos_of_nat_Z by exact Hlen.
  split; lia.
Qed.

Lemma taux_annulation_bounds_witness :
  exists k,
    calculate_kpis [s_laptop; s_cancelled] = Returns k
    /\ (0 <= taux_annulation k /\ taux_annulation k <= 100)%Q.
Proof.
  eexists. split; [reflexivity|].
  exact (taux_annulation_bounds [s_laptop; s_cancelled] _ eq_refl).
Defined.

(** ** The rows of an aggregation table *)

Lemma agg_In {K} `{KeyOrder K} {A R} (mk : K -> list A -> R)
  (key : A -> K) (rows : list A) (row : R) :
  In row (agg mk (groupby key rows)) ->
  exists k,
    row = mk k (filter (fun r => keqb (key r) k) rows)
    /\ exists r, In r rows /\ key r = k.
Proof.
  unfold agg. rewrite in_map_iff. intros ([k g] & <- & Hin).
  apply groupby_In in Hin. destruct Hin as (-> & Hr).
  exists k. split; [reflexivity | exact Hr].
Qed.

Lemma agg_key_In {K} `{KeyOrder K} {A R} (mk : K -> list A -> R)
  (rkey : R -> K) (key : A -> K) (rows : list A) (k : K) :
  (forall k g, rkey (mk k g) = k) ->
  In k (map rkey (agg mk (groupby key rows)))
  <-> exists r, In r rows /\ key r = k.
Proof.
  intros Hk. unfold agg. rewrite map_map.
  rewrite (map_ext _ fst) by (intros; apply Hk).
  rewrite groupby_keys, unique_sorted_In, in_map_iff.
  split; intros (r & Hr); exists r; tauto.
Qed.

Lemma agg_keys_NoDup {K} `{KeyOrder K} {A R} (mk : K -> list A -> R)
  (rkey : R -> K) (key : A -> K) (rows : list A) :
  (forall k g, rkey (mk k g) = k) ->
  NoDup (map rkey (agg mk (groupby key rows))).
Proof.
  intros Hk. unfold agg. rewrite map_map.
  rewrite (map_ext _ fst) by (intros; apply Hk).
  rewrite groupby_keys. apply unique_sorted_NoDup.
Qed.

Lemma delivered_iff (df : dataframe) (r : sale) :
  In r (df_delivered df) <-> In r df /\ status r = Livree.
Proof.
  unfold df_delivered, has_status. rewrite filter_In.
  destruct (status r); simpl; split; intros [? ?]; split; congruence.
Qed.

Lemma sorted_In `{SortValuesOk} {R} (col : R -> Z) (l : list R) (x : R) :
  In x (sort_values col l) <-> In x l.
Proof.
  split; apply Permutation_in;
    [|apply Permutation_sym]; apply sort_values_perm.
Qed.

Lemma sorted_keys `{SortValuesOk} {R K} (rkey : R -> K) (col : R -> Z)
  (l : list R) :
  Permutation (map rkey (sort_values col l)) (map rkey l).
Proof. apply Permutation_map, sort_values_perm. Qed.

Lemma table_keys `{SortValuesOk} {R} (mk : string -> list sale -> R)
  (rkey : R -> string) (col : R -> Z) (key : sale -> string)
  (df : dataframe) :
  (forall k g, rkey (mk k g) = k) ->
  (forall k,
     In k (map rkey (sort_values col (agg mk (groupby key (df_delivered df)))))
     <-> exists r, In r df /\ status r = Livree /\ key r = k)
  /\ NoDup (map rkey
                (sort_values col (agg mk (groupby key (df_delivered df))))).
Proof.
  intros Hk.
  pose proof (sorted_keys rkey col (agg mk (groupby key (df_delivered df))))
    as Hp.
  split.
  - intros k. transitivity (exists r, In r (df_delivered df) /\ key r = k).
    + rewrite <- (agg_key_In mk rkey key (df_delivered df) k Hk).
      split; apply Permutation_in; [exact Hp | now apply Permutation_sym].
    + split; intros (r & Hr & Hkr); exists r.
      * apply delivered_iff in Hr. tauto.
      * split; [apply delivered_iff|]; tauto.
  - apply (Permutation_NoDup (Permutation_sym Hp)).
    now apply agg_keys_NoDup.
Qed.

(** X4: a category, region or channel has a row in its table exactly when
    at least one delivered row carries it, and then it has one row only; a
    value without delivered row is absent, not shown with zeros. *)
Theorem dimension_values_present `{SortValuesOk} (df : dataframe) :
  (forall k,
     In k (map Category.key (analyze_by_category df))
     <-> exists r, In r df /\ status r = Livree /\ category r = k)
  /\ NoDup (map Category.key (analyze_by_category df))
  /\ (forall k,
        In k (map Region.key (analyze_by_region df))
        <-> exists r, In r df /\ status r = Livree /\ region r = k)
  /\ NoDup (map Region.key (analyze_by_region df))
  /\ (forall k,
        In k (map Channel.key (analyze_by_channel df))
        <-> exists r, In r df /\ status r = Livree /\ channel r = k)
  /\ NoDup (map Channel.key (analyze_by_channel df)).
Proof.
  unfold analyze_by_category, analyze_by_region, analyze_by_channel,
    category_analysis, region_analysis, channel_analysis.
  split; [|split]; [| |split; [|split; [|split]]];
    apply table_keys; reflexivity.
Qed.

Lemma dimension_values_present_witness :
  In "Accessoires"%string
     (map Category.key
          (@analyze_by_category stable_sort [s_laptop; s_mouse]))
  /\ ~ In "Accessoires"%string
          (map Category.key
               (@analyze_by_category stable_sort [s_laptop; s_cancelled])).
Proof.
  split.
  - apply (proj1 (@dimension_values_present stable_sort stable_sort_ok
                    [s_laptop; s_mouse])).
    exists s_mouse. repeat split. right; left; reflexivity.
  - intros Hin.
    apply (proj1 (@dimension_values_present stable_sort stable_sort_ok
                    [s_laptop; s_cancelled])) in Hin.
    destruct Hin as (r & [<-|[<-|[]]] & Hs & Hc); discriminate.
Defined.

Lemma group_nonempty {A} (p : A -> bool) (l : list A) (r : A) :
  In r l -> p r = true -> filter p l <> [].
Proof.
  intros Hin Hp E.
  assert (Hr : In r (filter p l)) by (apply filter_In; now split).
  rewrite E in Hr. exact Hr.
Qed.

Lemma round2_mean_number (unit : positive) (l : list Z) :
  l <> [] -> exists q, round2 (mean unit l) = Num q.
Proof. destruct l; [congruence|]. intros _. eexists. reflexivity. Qed.

(** X5: each row of the category table describes the delivered rows of
    its category: there is at least one, [Nb_ventes] counts them, the totals
    are their sums of total price and profit, the quantity is their sum of
    quantity as the int64 column adds it, with wrap-around, and the two
    averages are numbers, never NaN. *)
Theorem category_row_describes_group `{SortValuesOk} (df : dataframe)
  (row : Category.row) :
  In row (analyze_by_category df) ->
  let g := filter (fun r => String.eqb (category r) (Category.key row))
                  (df_delivered df) in
  g <> []
  /\ Category.Nb_ventes row = List.length g
  /\ Category.CA_total row = sum (map total_price g)
  /\ Category.Profit_total row = sum (map profit g)
  /\ Category.Quantite_totale row = wrap_int64 (sum (map quantity g))
  /\ (exists q, Category.CA_moyen row = Num q)
  /\ (exists q, Category.Marge row = Num q).
Proof.
  unfold analyze_by_category. rewrite sorted_In. intros Hin.
  apply agg_In in Hin. destruct Hin as (k & -> & r & Hr & Hk).
  cbn [Category.key Category.Nb_ventes Category.CA_total
       Category.Profit_total Category.Quantite_totale Category.CA_moyen
       Category.Marge].
  rewrite (filter_ext _ (fun r => keqb (category r) k))
    by (intros; symmetry; apply keqb_string).
  assert (Hne : filter (fun r => keqb (category r) k) (df_delivered df) <> []).
  { apply (group_nonempty _ _ r Hr). now apply keqb_eq. }
  rewrite !round2_sum_id. repeat split; try assumption.
  - apply round2_mean_number. intros E. apply map_eq_nil in E. auto.
  - apply round2_mean_number. intros E. apply map_eq_nil in E. auto.
Qed.

Lemma category_row_describes_group_witness :
  exists row,
    In row (@analyze_by_category stable_sort [s_mouse; s_cancelled; s_mouse])
    /\ Category.Nb_ventes row = 2%nat /\ Category.CA_total row = 6000.
Proof.
  eexists. split; [left; reflexivity|].
  pose proof (@category_row_describes_group stable_sort stable_sort_ok
                [s_mouse; s_cancelled; s_mouse] _ (or_introl eq_refl)) as H.
  split; [exact (proj1 (proj2 H)) | exact (proj1 (proj2 (proj2 H)))].
Defined.

(** ** The tables and the KPI *)

Lemma sum_ones {A} (l : list A) :
  sum (map (fun _ => 1) l) = Z.of_nat (List.length l).
Proof.
  induction l as [|a l IH]; [reflexivity|].
  cbn [List.length]. rewrite Nat2Z.inj_succ, <- IH.
  change (1 + sum (map (fun _ : A => 1) l)
          = Z.succ (sum (map (fun _ : A => 1) l))).
  lia.
Qed.

(** The groups of a table count its rows. *)
Lemma agg_count_column {K} `{KeyOrder K} {A R} (mk : K -> list A -> R)
  (col : R -> nat) (key : A -> K) (rows : list A) :
  (forall k g, col (mk k g) = List.length g) ->
  sum (map (fun r => Z.of_nat (col r)) (agg mk (groupby key rows)))
  = Z.of_nat (List.length rows).
Proof.
  intros Hcol. rewrite <- sum_ones.
  apply (agg_sum_column (fun r => Some (key r)) mk
           (fun r => Z.of_nat (col r)) (fun _ => 1)); [|discriminate].
  intros k g. now rewrite Hcol, sum_ones.
Qed.

Lemma sorted_sum `{SortValuesOk} {R} (col f : R -> Z) (l : list R) :
  sum (map f (sort_values col l)) = sum (map f l).
Proof. apply sum_perm, Permutation_map, sort_values_perm. Qed.

(** X6: the tables account for every sale: the count column of the
    category table, of the region table and of the channel table adds up
    to [nombre_ventes] of the KPI, and their profit columns each add up to
    the profit of the delivered rows. *)
Theorem tables_account_for_sales `{SortValuesOk} (df : dataframe)
  (k : kpi_set) :
  calculate_kpis df = Returns k ->
  let count {R} (col : R -> nat) (t : list R) :=
    sum (map (fun r => Z.of_nat (col r)) t) in
  count Category.Nb_ventes (analyze_by_category df)
  = Z.of_nat (nombre_ventes k)
  /\ count Region.Nb_commandes (analyze_by_region df)
     = Z.of_nat (nombre_ventes k)
  /\ count Channel.Nb_ventes (analyze_by_channel df)
     = Z.of_nat (nombre_ventes k)
  /\ sum (map Category.Profit_total (analyze_by_category df))
     = sum (map profit (df_delivered df))
  /\ sum (map Region.Profit (analyze_by_region df))
     = sum (map profit (df_delivered df))
  /\ sum (map Channel.Profit (analyze_by_channel df))
     = sum (map profit (df_delivered df)).
Proof.
  intros Hk count.
  assert (Hne : df <> []) by (intros ->; discriminate Hk).
  rewrite calculate_kpis_returns in Hk by exact Hne. injection Hk as <-.
  cbn [nombre_ventes]. subst count.
  unfold analyze_by_category, analyze_by_region, analyze_by_channel.
  rewrite !sorted_sum.
  repeat split.
  - now apply (agg_count_column _ Category.Nb_ventes category).
  - now apply (agg_count_column _ Region.Nb_commandes region).
  - now apply (agg_count_column _ Channel.Nb_ventes channel).
  - apply (agg_sum_column (fun r => Some (category r))); [|discriminate].
    intros; apply round2_sum_id.
  - apply (agg_sum_column (fun r => Some (region r))); [|discriminate].
    intros; apply round2_sum_id.
  - apply (agg_sum_column (fun r => Some (channel r))); [|discriminate].
    intros; apply round2_sum_id.
Qed.

Lemma tables_account_for_sales_witness :
  exists k,
    calculate_kpis [s_laptop; s_cancelled; s_mouse] = Returns k
    /\ sum (map (fun r => Z.of_nat (Region.Nb_commandes r))
                (@analyze_by_region stable_sort
                   [s_laptop; s_cancelled; s_mouse]))
       = Z.of_nat (nombre_ventes k).
Proof.
  eexists. split; [reflexivity|].
  exact (proj1 (proj2 (@tables_account_for_sales stable_sort stable_sort_ok
                         [s_laptop; s_cancelled; s_mouse] _ eq_refl))).
Defined.

(** ** Other values of [top_n] *)

Lemma head_nonneg {A} (n : Z) (l : list A) :
  0 <= n -> head n l = firstn (Z.to_nat n) l.
Proof. intros Hn. unfold head. destruct (n <? 0) eqn:E; [lia | reflexivity]. Qed.

(** X7: [top_n = 0] gives an empty product table; a larger [top_n] only
    adds rows after those of a smaller one; a negative [top_n] does not
    fail: it leaves out the last [-top_n] groups of the descending order,
    and all of them when there are no more. *)
Theorem top_n_edge_cases `{SortValuesOk} (df : dataframe) :
  let groups := List.length (product_analysis (df_delivered df)) in
  let full := analyze_by_product df (Some (Z.of_nat groups)) in
  analyze_by_product df (Some 0) = []
  /\ (forall n m,
        0 <= n <= m ->
        analyze_by_product df (Some n)
        = firstn (Z.to_nat n) (analyze_by_product df (Some m)))
  /\ (forall n,
        n < 0 ->
        analyze_by_product df (Some n)
        = firstn (List.length full - Z.to_nat (- n)) full).
Proof.
  intros groups full. unfold analyze_by_product in *.
  split; [reflexivity|]. split.
  - intros n m Hnm. rewrite !head_nonneg by lia.
    rewrite firstn_firstn. f_equal. lia.
  - intros n Hn. subst full. rewrite (head_all (Z.of_nat groups)).
    + unfold head. destruct (n <? 0) eqn:E; [reflexivity | lia].
    + subst groups.
      rewrite (Permutation_length (sort_values_perm _ _ _)). lia.
Qed.

Lemma top_n_edge_cases_witness :
  map Product.key (@analyze_by_product stable_sort three_products (Some (-1)))
  = ["Laptop"%string; "Mouse"%string]
  /\ @analyze_by_product stable_sort three_products (Some 1)
     = firstn 1 (@analyze_by_product stable_sort three_products (Some 2)).
Proof.
  split; [reflexivity|].
  refine (proj1 (proj2 (@top_n_edge_cases stable_sort stable_sort_ok
                          three_products)) 1 2 _).
  lia.
Defined.

(** ** The order of the input rows *)

Lemma filter_perm {A} (p : A -> bool) (l l' : list A) :
  Permutation l l' -> Permutation (filter p l) (filter p l').
Proof.
  induction 1 as [|a l l' Hp IH|a b l|l1 l2 l3 H1 IH1 H2 IH2]; simpl.
  - constructor.
  - destruct (p a); [now constructor | exact IH].
  - destruct (p a), (p b); try reflexivity. apply perm_swap.
  - now transitivity (filter p l2).
Qed.

Lemma dropna_perm {A} (l l' : list (option A)) :
  Permutation l l' -> Permutation (dropna l) (dropna l').
Proof.
  induction 1 as [|a l l' Hp IH|a b l|l1 l2 l3 H1 IH1 H2 IH2]; simpl.
  - constructor.
  - destruct a; [now constructor | exact IH].
  - destruct a, b; try reflexivity. apply perm_swap.
  - now transitivity (dropna l2).
Qed.

Lemma mean_perm (unit : positive) (l l' : list Z) :
  Permutation l l' -> mean unit l = mean unit l'.
Proof.
  intros Hp. unfold mean.
  rewrite (sum_perm l l' Hp), (Permutation_length Hp).
  destruct l, l'; try reflexivity.
  - now apply Permutation_nil in Hp.
  - apply Permutation_sym in Hp. now apply Permutation_nil in Hp.
Qed.

Lemma nunique_perm {K} `{KeyOrder K} (l l' : list K) :
  Permutation l l' -> nunique l = nunique l'.
Proof. intros Hp. unfold nunique. now rewrite (unique_sorted_perm l l' Hp). Qed.

(** A table whose rows are computed from each group as a whole does not
    depend on the order of the rows that are grouped. *)
Lemma agg_perm {K} `{KeyOrder K} {A R} (mk : K -> list A -> R)
  (key : A -> option K) (rows rows' : list A) :
  (forall k g g', Permutation g g' -> mk k g = mk k g') ->
  Permutation rows rows' ->
  agg mk (groupby_dropna key rows) = agg mk (groupby_dropna key rows').
Proof.
  intros Hmk Hp. unfold agg, groupby_dropna. rewrite !map_map. simpl.
  rewrite (unique_sorted_perm _ (dropna (map key rows')))
    by (apply dropna_perm, Permutation_map, Hp).
  apply map_ext. intros k. apply Hmk. now apply filter_perm.
Qed.

Ltac by_columns :=
  unfold sum_int64;
  repeat match goal with
         | Hp : Permutation ?g ?g' |- context [sum (map ?f ?g)] =>
             rewrite (sum_perm (map f g) (map f g') (Permutation_map f Hp))
         | Hp : Permutation ?g ?g' |- context [mean ?u (map ?f ?g)] =>
             rewrite (mean_perm u (map f g) (map f g')
                        (Permutation_map f Hp))
         | Hp : Permutation ?g ?g' |- context [nunique (map ?f ?g)] =>
             rewrite (nunique_perm (map f g) (map f g')
                        (Permutation_map f Hp))
         | Hp : Permutation ?g ?g' |- context [List.length ?g] =>
             rewrite (Permutation_length Hp)
         end;
  reflexivity.

Lemma date_leb_iff (a b : civil_date) :
  date_leb a b = true
  <-> year a < year b
      \/ (year a = year b
          /\ (month a < month b \/ (month a = month b /\ day a <= day b))).
Proof.
  unfold date_leb.
  rewrite orb_true_iff, andb_true_iff, orb_true_iff, andb_true_iff.
  now rewrite !Z.ltb_lt, !Z.eqb_eq, Z.leb_le.
Qed.

Lemma date_leb_total (a b : civil_date) :
  date_leb a b = false -> date_leb b a = true.
Proof.
  intros Hf. apply date_leb_iff.
  destruct (date_leb a b) eqn:E; [discriminate|].
  assert (Hn : ~ (date_leb a b = true)) by congruence.
  rewrite date_leb_iff in Hn. lia.
Qed.

Lemma date_leb_refl (a : civil_date) : date_leb a a = true.
Proof. apply date_leb_iff. lia. Qed.

Lemma date_leb_trans (a b c : civil_date) :
  date_leb a b = true -> date_leb b c = true -> date_leb a c = true.
Proof. rewrite !date_leb_iff. lia. Qed.

Lemma date_leb_antisym (a b : civil_date) :
  date_leb a b = true -> date_leb b a = true -> a = b.
Proof.
  rewrite !date_leb_iff. intros Hab Hba.
  destruct a as [y m d], b as [y' m' d']; simpl in *.
  assert (y = y' /\ m = m' /\ d = d') as (-> & -> & ->) by lia.
  reflexivity.
Qed.

Lemma date_max_spec (l : list civil_date) (m : civil_date) :
  date_max l = Some m ->
  In m l /\ forall d, In d l -> date_leb d m = true.
Proof.
  revert m. induction l as [|d l IH]; simpl; intros m Hm; [discriminate|].
  destruct (date_max l) as [m0|] eqn:E.
  - destruct (IH m0 eq_refl) as (Hin & Hub).
    destruct (date_leb m0 d) eqn:Hle; injection Hm as <-.
    + split; [now left|]. intros x [<-|Hx]; [apply date_leb_refl|].
      eapply date_leb_trans; [now apply Hub | exact Hle].
    + split; [now right|]. intros x [<-|Hx]; [|now apply Hub].
      now apply date_leb_total.
  - injection Hm as <-. destruct l as [|d' l]; [|simpl in E].
    + split; [now left|]. intros x [<-|[]]. apply date_leb_refl.
    + destruct (date_max l); discriminate E.
Qed.

Lemma date_max_none (l : list civil_date) : date_max l = None -> l = [].
Proof.
  destruct l as [|d l]; [reflexivity|]. simpl.
  destruct (date_max l); discriminate.
Qed.

Lemma date_max_perm (l l' : list civil_date) :
  Permutation l l' -> date_max l = date_max l'.
Proof.
  intros Hp.
  destruct (date_max l) as [m|] eqn:E, (date_max l') as [m'|] eqn:E'.
  - apply date_max_spec in E, E'. destruct E as (Hin & Hub), E' as (Hin' & Hub').
    f_equal. apply date_leb_antisym.
    + apply Hub'. eapply Permutation_in; eassumption.
    + apply Hub. eapply Permutation_in; [apply Permutation_sym|]; eassumption.
  - apply date_max_none in E'. subst l'.
    apply Permutation_sym, Permutation_nil in Hp. subst l. discriminate E.
  - apply date_max_none in E. subst l.
    apply Permutation_nil in Hp. subst l'. discriminate E'.
  - reflexivity.
Qed.

Lemma customer_metrics_perm (d d' : dataframe) :
  Permutation d d' -> customer_metrics d = customer_metrics d'.
Proof.
  intros Hp. unfold customer_metrics. cbv zeta.
  rewrite (date_max_perm _ _ (Permutation_map date Hp)).
  f_equal. unfold groupby. apply agg_perm; [|exact Hp].
  intros k g g' Hg.
  rewrite (date_max_perm _ _ (Permutation_map date Hg)).
  by_columns.
Qed.

(** X8: what is counted or summed and then rounded does not depend on the
    order of the input rows.  For two inputs that are permutations of each
    other the KPI give the same number of sales, number of customers and
    cancellation rate; the category, region, channel and product tables have
    the same rows in the same order with the same counts and rounded sums;
    the monthly table and the customer table are the same; and the segment
    summary has the same rows with the same sums.  (The averages and the
    unrounded sums of the KPI are floating-point sums, which the order of
    the rows can change: nothing is said of them.) *)
Theorem row_order_irrelevant `{SortValues} (df df' : dataframe) :
  Permutation df df' ->
  (forall k,
     calculate_kpis df = Returns k ->
     exists k',
       calculate_kpis df' = Returns k'
       /\ nombre_ventes k = nombre_ventes k'
       /\ nombre_clients k = nombre_clients k'
       /\ taux_annulation k = taux_annulation k')
  /\ map (fun r => (Category.key r, Category.CA_total r,
                    Category.Nb_ventes r, Category.Profit_total r,
                    Category.Quantite_totale r))
         (analyze_by_category df)
     = map (fun r => (Category.key r, Category.CA_total r,
                      Category.Nb_ventes r, Category.Profit_total r,
                      Category.Quantite_totale r))
           (analyze_by_category df')
  /\ map (fun r => (Region.key r, Region.CA_total r, Region.Profit r,
                    Region.Nb_commandes r, Region.Nb_clients r))
         (analyze_by_region df)
     = map (fun r => (Region.key r, Region.CA_total r, Region.Profit r,
                      Region.Nb_commandes r, Region.Nb_clients r))
           (analyze_by_region df')
  /\ map (fun r => (Channel.key r, Channel.CA_total r, Channel.Profit r,
                    Channel.Nb_ventes r))
         (analyze_by_channel df)
     = map (fun r => (Channel.key r, Channel.CA_total r, Channel.Profit r,
                      Channel.Nb_ventes r))
           (analyze_by_channel df')
  /\ (forall n,
        map (fun r => (Product.key r, Product.CA_total r, Product.Profit r,
                       Product.Quantite_vendue r, Product.Nb_commandes r))
            (analyze_by_product df n)
        = map (fun r => (Product.key r, Product.CA_total r,
                         Product.Profit r, Product.Quantite_vendue r,
                         Product.Nb_commandes r))
              (analyze_by_product df' n))
  /\ analyze_time_trends df = analyze_time_trends df'
  /\ fst (analyze_customer_segments df)
     = fst (analyze_customer_segments df')
  /\ map (fun r => (Summary.key r, Summary.ca_total_sum r,
                    Summary.nb_commandes_sum r))
         (snd (analyze_customer_segments df))
     = map (fun r => (Summary.key r, Summary.ca_total_sum r,
                      Summary.nb_commandes_sum r))
           (snd (analyze_customer_segments df')).
Proof.
  intros Hp.
  pose proof (filter_perm (has_status Livree) _ _ Hp) as Hd.
  pose proof (filter_perm (has_status Annulee) _ _ Hp) as Hc.
  fold (df_delivered df) in Hd. fold (df_delivered df') in Hd.
  split.
  { intros k Hk.
    assert (Hne : df <> []) by (intros ->; discriminate Hk).
    assert (Hne' : df' <> []).
    { intros ->. apply Permutation_sym, Permutation_nil in Hp.
      contradiction. }
    rewrite calculate_kpis_returns in Hk by exact Hne. injection Hk as <-.
    eexists. split; [now apply calculate_kpis_returns|].
    cbn [nombre_ventes nombre_clients taux_annulation].
    repeat split; by_columns. }
  split.
  { f_equal.
    unfold analyze_by_category, category_analysis, groupby. f_equal.
    apply agg_perm; [|exact Hd]. intros k g g' Hg. by_columns. }
  split.
  { f_equal.
    unfold analyze_by_region, region_analysis, groupby. f_equal.
    apply agg_perm; [|exact Hd]. intros k g g' Hg. by_columns. }
  split.
  { f_equal.
    unfold analyze_by_channel, channel_analysis, groupby. f_equal.
    apply agg_perm; [|exact Hd]. intros k g g' Hg. by_columns. }
  split.
  { intros n. f_equal.
    unfold analyze_by_product, product_analysis, groupby.
    do 2 f_equal.
    apply agg_perm; [|exact Hd]. intros k g g' Hg. by_columns. }
  split.
  { unfold analyze_time_trends, monthly_trends, with_year_month.
    apply agg_perm; [|now apply Permutation_map].
    intros k g g' Hg. by_columns. }
  unfold analyze_customer_segments. rewrite !with_datetime_id.
  cbn [fst snd]. now rewrite (customer_metrics_perm _ _ Hd).
Qed.

Lemma row_order_irrelevant_witness :
  map Region.CA_total
      (@analyze_by_region stable_sort [s_laptop; s_cancelled; s_mouse])
  = map Region.CA_total
        (@analyze_by_region stable_sort [s_mouse; s_laptop; s_cancelled])
  /\ analyze_time_trends [s_laptop; s_cancelled; s_mouse]
     = analyze_time_trends [s_mouse; s_laptop; s_cancelled].
Proof.
  split; [reflexivity|].
  refine (proj1 (proj2 (proj2 (proj2 (proj2 (proj2
            (@row_order_irrelevant stable_sort
               [s_laptop; s_cancelled; s_mouse]
               [s_mouse; s_laptop; s_cancelled] _))))))).
  apply Permutation_sym.
  change (Permutation ([s_mouse] ++ [s_laptop; s_cancelled])
                      ([s_laptop; s_cancelled] ++ [s_mouse])).
  apply Permutation_app_comm.
Defined.

(** ** More on segmentation *)

(** X9: the segmentation never demotes: a customer with at least as many
    orders and at least as much spend as another is in the same segment or
    in a more valuable one. *)
Theorem segment_customer_monotone (m m' : Customer.metrics) :
  Customer.nb_commandes m <= Customer.nb_commandes m' ->
  Customer.ca_total m <= Customer.ca_total m' ->
  segment_rank (segment_customer m) <= segment_rank (segment_customer m').
Proof.
  intros Hn Hc. unfold segment_customer.
  rewrite !Z.gtb_ltb, !Z.geb_leb.
  destruct (5 <? Customer.nb_commandes m) eqn:E1,
           (200000 <? Customer.ca_total m) eqn:E2,
           (5 <? Customer.nb_commandes m') eqn:E3,
           (200000 <? Customer.ca_total m') eqn:E4,
           (3 <=? Customer.nb_commandes m) eqn:E5,
           (3 <=? Customer.nb_commandes m') eqn:E6;
    cbn; try lia;
    rewrite ?Z.ltb_lt, ?Z.ltb_ge, ?Z.leb_le, ?Z.leb_gt in *; lia.
Qed.

Lemma segment_customer_monotone_witness :
  segment_rank
    (segment_customer (Customer.mk_metrics "C1" None 2 30000 None))
  <= segment_rank
       (segment_customer (Customer.mk_metrics "C2" None 4 30000 None)).
Proof.
  apply segment_customer_monotone; simpl; lia.
Defined.

(** A column of the customer table that sums [f] over the orders of each
    customer sums [f] over the table. *)
Lemma customer_column (d : dataframe) (col : Customer.metrics -> Z)
  (f : sale -> Z) :
  (forall k last recency (g : list sale),
     col (Customer.mk_metrics k last (Z.of_nat (List.length g))
                              (round2_sum (sum (map total_price g))) recency)
     = sum (map f g)) ->
  sum (map (fun c => col (Customer.rfm c)) (customer_metrics d))
  = sum (map f d).
Proof.
  intros Hcol. unfold customer_metrics. cbv zeta. rewrite map_map. simpl.
  apply (agg_sum_column (fun r => Some (customer_id r))); [|discriminate].
  intros k g. apply Hcol.
Qed.

(** X10: the customer table accounts for every delivered row once: its
    [nb_commandes] column adds up to [nombre_ventes] of the KPI, its
    [ca_total] column, rounded sums, to the total price of the delivered
    rows, and it has [nombre_clients] rows. *)
Theorem customer_table_totals (df : dataframe) (k : kpi_set) :
  calculate_kpis df = Returns k ->
  let customers := fst (analyze_customer_segments df) in
  sum (map (fun c => Customer.nb_commandes (Customer.rfm c)) customers)
  = Z.of_nat (nombre_ventes k)
  /\ sum (map (fun c => Customer.ca_total (Customer.rfm c)) customers)
     = sum (map total_price (df_delivered df))
  /\ List.length customers = nombre_clients k.
Proof.
  intros Hk customers.
  assert (Hne : df <> []) by (intros ->; discriminate Hk).
  rewrite calculate_kpis_returns in Hk by exact Hne. injection Hk as <-.
  cbn [nombre_ventes nombre_clients].
  subst customers. cbn [analyze_customer_segments fst].
  rewrite with_datetime_id. repeat split.
  - rewrite <- sum_ones. apply customer_column.
    intros. cbn. apply eq_sym, sum_ones.
  - apply customer_column. intros. cbn. apply round2_sum_id.
  - rewrite <- (length_map (fun c => Customer.key (Customer.rfm c))).
    now rewrite customer_metrics_keys.
Qed.

Lemma customer_table_totals_witness :
  exists k,
    calculate_kpis six_laptops = Returns k
    /\ List.length (fst (analyze_customer_segments six_laptops))
       = nombre_clients k.
Proof.
  eexists. split; [reflexivity|].
  exact (proj2 (proj2 (customer_table_totals six_laptops _ eq_refl))).
Defined.

Lemma customer_metrics_row (d : dataframe) (c : Customer.row) :
  In c (customer_metrics d)
  <-> exists k,
        (exists r, In r d /\ customer_id r = k)
        /\ let g := filter (fun r => keqb (customer_id r) k) d in
           let m := Customer.mk_metrics k (date_max (map date g))
                      (Z.of_nat (List.length g))
                      (round2_sum (sum (map total_price g)))
                      (days_between (date_max (map date d))
                                    (date_max (map date g))) in
           c = Customer.mk m (segment_customer m).
Proof.
  unfold customer_metrics, agg. cbv zeta. rewrite map_map, in_map_iff.
  split.
  - intros ([k g] & <- & Hin). apply groupby_In in Hin.
    destruct Hin as (-> & Hr). exists k. split; [exact Hr | reflexivity].
  - intros (k & (r & Hr & <-) & ->).
    exists (customer_id r,
            filter (fun x => keqb (customer_id x) (customer_id r)) d).
    split; [reflexivity | now apply groupby_has_key].
Qed.

Lemma date_max_some (l : list civil_date) :
  l <> [] -> exists m, date_max l = Some m.
Proof.
  intros Hne. destruct (date_max l) as [m|] eqn:E; [now exists m|].
  now apply date_max_none in E.
Qed.

(** X11: in the customer table the last order date of a customer is the
    date of one of the customer's delivered orders and none of them is
    later; it is not later than the latest delivered order of the table,
    and the recency is the number of days from the one to the other,
    always present. *)
Theorem customer_last_order (df : dataframe) (c : Customer.row) :
  In c (fst (analyze_customer_segments df)) ->
  exists last latest,
    Customer.derniere_commande (Customer.rfm c) = Some last
    /\ date_max (map date (df_delivered df)) = Some latest
    /\ (exists r, In r (df_delivered df)
                  /\ customer_id r = Customer.key (Customer.rfm c)
                  /\ date r = last)
    /\ (forall r, In r (df_delivered df) ->
                  customer_id r = Customer.key (Customer.rfm c) ->
                  date_leb (date r) last = true)
    /\ date_leb last latest = true
    /\ Customer.recence_jours (Customer.rfm c)
       = Some (to_ordinal latest - to_ordinal last).
Proof.
  cbn [analyze_customer_segments fst]. rewrite with_datetime_id.
  set (d := df_delivered df). intros Hin.
  apply customer_metrics_row in Hin.
  destruct Hin as (k & (r & Hr & Hk) & ->). cbn.
  set (g := filter (fun x => keqb (customer_id x) k) d).
  assert (Hrg : In r g) by (apply filter_In; split; [|apply keqb_eq]; auto).
  destruct (date_max_some (map date g)) as (last & Hlast).
  { intros E. apply map_eq_nil in E. rewrite E in Hrg. exact Hrg. }
  destruct (date_max_some (map date d)) as (latest & Hlatest).
  { intros E. apply map_eq_nil in E. rewrite E in Hr. exact Hr. }
  exists last, latest. rewrite Hlast, Hlatest.
  apply date_max_spec in Hlast, Hlatest.
  destruct Hlast as (Hin & Hub), Hlatest as (Hin' & Hub').
  apply in_map_iff in Hin. destruct Hin as (r0 & Hd0 & Hr0).
  apply filter_In in Hr0. destruct Hr0 as (Hr0 & Hk0). apply keqb_eq in Hk0.
  repeat split; try reflexivity.
  - now exists r0.
  - intros x Hx Hkx. apply Hub, in_map, filter_In.
    split; [exact Hx | now apply keqb_eq].
  - apply Hub'. rewrite <- Hd0. now apply in_map.
Qed.

Lemma customer_last_order_witness :
  exists c latest,
    In c (fst (analyze_customer_segments [s_laptop; s_mouse]))
    /\ Customer.key (Customer.rfm c) = "C1000"%string
    /\ Customer.recence_jours (Customer.rfm c)
       = Some (to_ordinal latest - to_ordinal (mk_date 2024 3 5)).
Proof.
  destruct (customer_last_order [s_laptop; s_mouse] _ (or_introl eq_refl))
    as (last & latest & Hlast & _ & _ & _ & _ & Hrec).
  eexists. exists latest. split; [left; reflexivity|].
  split; [reflexivity|].
  injection Hlast as <-. exact Hrec.
Defined.

(** X12: when there is a delivered row, the customer who placed the latest
    delivered order has a recency of 0 days. *)
Theorem latest_customer_recency_zero (df : dataframe) :
  df_delivered df <> [] ->
  exists c,
    In c (fst (analyze_customer_segments df))
    /\ Customer.derniere_commande (Customer.rfm c)
       = date_max (map date (df_delivered df))
    /\ Customer.recence_jours (Customer.rfm c) = Some 0.
Proof.
  cbn [analyze_customer_segments fst]. rewrite with_datetime_id.
  set (d := df_delivered df). intros Hne.
  destruct (date_max_some (map date d)) as (latest & Hlatest).
  { intros E. now apply map_eq_nil in E. }
  destruct (date_max_spec _ _ Hlatest) as (Hin & Hub).
  apply in_map_iff in Hin. destruct Hin as (r & Hdr & Hr).
  set (g := filter (fun x => keqb (customer_id x) (customer_id r)) d).
  assert (Hrg : In r g) by (apply filter_In; split; [|apply keqb_refl]; auto).
  destruct (date_max_some (map date g)) as (last & Hlast).
  { intros E. apply map_eq_nil in E. rewrite E in Hrg. exact Hrg. }
  destruct (date_max_spec _ _ Hlast) as (Hin' & Hub').
  assert (E : last = latest).
  { apply date_leb_antisym.
    - apply Hub. apply in_map_iff in Hin'. destruct Hin' as (x & <- & Hx).
      apply in_map. apply filter_In in Hx. tauto.
    - rewrite <- Hdr. now apply Hub', in_map. }
  subst last.
  eexists. split.
  { apply customer_metrics_row. exists (customer_id r).
    split; [now exists r | reflexivity]. }
  cbn. fold g. rewrite Hlast, Hlatest. split; [reflexivity|].
  cbn. f_equal. lia.
Qed.

Lemma latest_customer_recency_zero_witness :
  exists c,
    In c (fst (analyze_customer_segments [s_laptop; s_cancelled; s_mouse]))
    /\ Customer.recence_jours (Customer.rfm c) = Some 0.
Proof.
  destruct (latest_customer_recency_zero [s_laptop; s_cancelled; s_mouse])
    as (c & Hin & _ & Hrec); [discriminate|].
  exists c. split; [exact Hin | exact Hrec].
Defined.

(** ** The segment summary *)

Lemma segment_klt_rank (a b : segment) :
  klt a b <-> segment_rank a < segment_rank b.
Proof.
  destruct a, b; vm_compute; split; intros E; try reflexivity;
    discriminate E.
Qed.

Lemma customer_recency_present (d : dataframe) (c : Customer.row) :
  In c (customer_metrics d) ->
  Customer.recence_jours (Customer.rfm c) <> None.
Proof.
  intros Hin. apply customer_metrics_row in Hin.
  destruct Hin as (k & (r & Hr & Hk) & ->). cbn.
  set (g := filter (fun x => keqb (customer_id x) k) d).
  assert (Hrg : In r g) by (apply filter_In; split; [|apply keqb_eq]; auto).
  destruct (date_max_some (map date g)) as (last & ->).
  { intros E. apply map_eq_nil in E. rewrite E in Hrg. exact Hrg. }
  destruct (date_max_some (map date d)) as (latest & ->).
  { intros E. apply map_eq_nil in E. rewrite E in Hr. exact Hr. }
  discriminate.
Qed.

Lemma dropna_nonempty {A} (l : list (option A)) :
  l <> [] -> (forall x, In x l -> x <> None) -> dropna l <> [].
Proof.
  destruct l as [|[a|] l]; [congruence | discriminate |].
  intros _ Hall. destruct (Hall None (or_introl eq_refl) eq_refl).
Qed.

(** X13: the segment summary has one row for each segment that has a
    customer and none for the others, in the order Occasionnel, Régulier,
    VIP; its spend and order-count totals add up to the total price and to
    the number of the delivered rows; and its three averages are numbers,
    never NaN. *)
Theorem segment_summary_accounts (df : dataframe) :
  let customers := fst (analyze_customer_segments df) in
  let summary := snd (analyze_customer_segments df) in
  (forall s,
     In s (map Summary.key summary)
     <-> exists c, In c customers /\ Customer.segment_of c = s)
  /\ StronglySorted (fun a b => segment_rank a < segment_rank b)
                    (map Summary.key summary)
  /\ (List.length summary <= 3)%nat
  /\ sum (map Summary.ca_total_sum summary)
     = sum (map total_price (df_delivered df))
  /\ sum (map Summary.nb_commandes_sum summary)
     = Z.of_nat (List.length (df_delivered df))
  /\ forall row,
       In row summary ->
       exists q1 q2 q3,
         Summary.ca_total_mean row = Num q1
         /\ Summary.nb_commandes_mean row = Num q2
         /\ Summary.recence_jours_mean row = Num q3.
Proof.
  cbn [analyze_customer_segments fst snd]. rewrite with_datetime_id.
  set (cm := customer_metrics (df_delivered df)).
  assert (Hsorted : StronglySorted klt
                      (map Summary.key (segment_summary cm))).
  { apply (agg_keys_sorted (fun c => Some (Customer.segment_of c))).
    reflexivity. }
  split; [|split; [|split; [|split; [|split]]]].
  - intros s. apply (agg_key_In _ Summary.key Customer.segment_of).
    reflexivity.
  - eapply StronglySorted_ind with (P := fun l =>
      StronglySorted (fun a b => segment_rank a < segment_rank b) l);
      [constructor | | exact Hsorted].
    intros a l _ IH Hall. constructor; [exact IH|].
    eapply Forall_impl; [|exact Hall]. intros b. apply segment_klt_rank.
  - rewrite <- (length_map Summary.key).
    apply (NoDup_incl_length (l' := [VIP; Regulier; Occasionnel])).
    + now apply sorted_NoDup.
    + intros s _. destruct s; simpl; auto.
  - rewrite <- (customer_column (df_delivered df) Customer.ca_total
                  total_price) by (intros; apply round2_sum_id).
    apply (agg_sum_column (fun c => Some (Customer.segment_of c)));
      [|discriminate].
    intros k g. apply round2_sum_id.
  - rewrite <- sum_ones.
    rewrite <- (customer_column (df_delivered df) Customer.nb_commandes
                  (fun _ => 1)) by (intros; apply eq_sym, sum_ones).
    apply (agg_sum_column (fun c => Some (Customer.segment_of c)));
      [|discriminate].
    reflexivity.
  - intros row Hin. apply agg_In in Hin.
    destruct Hin as (s & -> & c & Hc & Hs). cbn.
    set (g := filter (fun r => keqb (Customer.segment_of r) s) cm).
    assert (Hne : g <> []).
    { apply (group_nonempty _ _ c Hc). now apply keqb_eq. }
    destruct (round2_mean_number 100
                (map (fun r => Customer.ca_total (Customer.rfm r)) g))
      as (q1 & ->); [intros E; now apply map_eq_nil in E|].
    destruct (round2_mean_number 1
                (map (fun r => Customer.nb_commandes (Customer.rfm r)) g))
      as (q2 & ->); [intros E; now apply map_eq_nil in E|].
    destruct (round2_mean_number 1
                (dropna (map (fun r => Customer.recence_jours
                                         (Customer.rfm r)) g)))
      as (q3 & ->); [|now exists q1, q2, q3].
    apply dropna_nonempty; [intros E; now apply map_eq_nil in E|].
    intros x Hx. apply in_map_iff in Hx. destruct Hx as (c' & <- & Hc').
    apply filter_In in Hc'.
    apply (customer_recency_present (df_delivered df)). tauto.
Qed.

Lemma segment_summary_accounts_witness :
  map Summary.key (snd (analyze_customer_segments six_laptops))
  = [Occasionnel; VIP]
  /\ exists c, In c (fst (analyze_customer_segments six_laptops))
               /\ Customer.segment_of c = VIP.
Proof.
  split; [reflexivity|].
  apply (proj1 (segment_summary_accounts six_laptops)).
  right; left; reflexivity.
Defined.

(** ** The monthly table and the region table *)

Lemma with_year_month_keys (d : dataframe) :
  dropna (map year_month (with_year_month d))
  = map (fun r => to_period_M (date r)) d.
Proof.
  unfold with_year_month. rewrite map_map. simpl.
  apply (dropna_map_Some (fun r => to_period_M (date r))).
Qed.

(** X14: the monthly table has a row for a calendar month exactly when a
    delivered row is dated in it; its order counts add up to the number of
    delivered rows and its profits to their profit; and in each row the
    number of customers lies between 1 and the number of orders. *)
Theorem monthly_table_accounts (df : dataframe) :
  (forall k,
     In k (map Trend.key (analyze_time_trends df))
     <-> exists r, In r df /\ status r = Livree
                   /\ to_period_M (date r) = k)
  /\ sum (map (fun row => Z.of_nat (Trend.Nb_commandes row))
              (analyze_time_trends df))
     = Z.of_nat (List.length (df_delivered df))
  /\ sum (map Trend.Profit (analyze_time_trends df))
     = sum (map profit (df_delivered df))
  /\ forall row,
       In row (analyze_time_trends df) ->
       (1 <= Trend.Nb_clients row <= Trend.Nb_commandes row)%nat.
Proof.
  unfold analyze_time_trends, monthly_trends.
  set (d := with_year_month (df_delivered df)).
  assert (Hkey : forall r, In r d -> year_month r <> None).
  { subst d. unfold with_year_month. intros r Hr.
    apply in_map_iff in Hr. destruct Hr as (r0 & <- & _). discriminate. }
  split; [|split; [|split]].
  - intros k. unfold agg. rewrite map_map. simpl.
    change (map (fun x => fst x) (groupby_dropna year_month d))
      with (map fst (groupby_dropna year_month d)).
    rewrite groupby_dropna_keys, unique_sorted_In. subst d.
    rewrite with_year_month_keys, in_map_iff.
    split; intros (r & H1 & H2); exists r.
    + apply delivered_iff in H2. tauto.
    + split; [|apply delivered_iff]; tauto.
  - rewrite (agg_sum_column year_month _ _ (fun _ => 1)); try assumption.
    + rewrite sum_ones. subst d. unfold with_year_month.
      now rewrite length_map.
    + intros k g. cbn. now rewrite sum_ones.
  - rewrite (agg_sum_column year_month _ _ profit); try assumption.
    + subst d. unfold with_year_month. now rewrite map_map.
    + intros k g. apply round2_sum_id.
  - intros row Hin. unfold agg in Hin. apply in_map_iff in Hin.
    destruct Hin as ([k g] & <- & Hin). cbn.
    apply groupby_dropna_In in Hin. destruct Hin as (-> & r & Hr & Hk).
    set (g := filter (has_key year_month k) d).
    assert (Hne : g <> []).
    { apply (group_nonempty _ _ r Hr). now apply has_key_true. }
    pose proof (nunique_le_length (map customer_id g)) as Hle.
    rewrite length_map in Hle. split; [|exact Hle].
    apply nunique_pos. intros E. now apply map_eq_nil in E.
Qed.

Lemma monthly_table_accounts_witness :
  In 651 (map Trend.key (analyze_time_trends [s_laptop; s_mouse]))
  /\ to_period_M (mk_date 2024 4 1) = 651.
Proof.
  split; [|reflexivity].
  apply (proj1 (monthly_table_accounts [s_laptop; s_mouse])).
  exists s_mouse. repeat split. right; left; reflexivity.
Defined.

(** X15: each row of the region table counts the delivered rows of its
    region in [Nb_commandes] and their distinct customers in [Nb_clients],
    which lies between 1 and [Nb_commandes]. *)
Theorem region_row_counts `{SortValuesOk} (df : dataframe)
  (row : Region.row) :
  In row (analyze_by_region df) ->
  let g := filter (fun r => String.eqb (region r) (Region.key row))
                  (df_delivered df) in
  Region.Nb_commandes row = List.length g
  /\ Region.Nb_clients row = nunique (map customer_id g)
  /\ (1 <= Region.Nb_clients row <= Region.Nb_commandes row)%nat.
Proof.
  unfold analyze_by_region. rewrite sorted_In. intros Hin.
  apply agg_In in Hin. destruct Hin as (k & -> & r & Hr & Hk).
  cbn [Region.key Region.Nb_commandes Region.Nb_clients].
  rewrite (filter_ext (fun r => String.eqb (region r) k)
                      (fun r => keqb (region r) k))
    by (intros; symmetry; apply keqb_string).
  set (g := filter (fun r => keqb (region r) k) (df_delivered df)).
  assert (Hne : g <> []).
  { apply (group_nonempty _ _ r Hr). now apply keqb_eq. }
  pose proof (nunique_le_length (map customer_id g)) as Hle.
  rewrite length_map in Hle. repeat split; try exact Hle.
  apply nunique_pos. intros E. now apply map_eq_nil in E.
Qed.

Lemma region_row_counts_witness :
  exists row,
    In row (@analyze_by_region stable_sort [s_laptop; s_laptop; s_mouse])
    /\ Region.Nb_commandes row = 3%nat /\ Region.Nb_clients row = 2%nat.
Proof.
  eexists. split; [left; reflexivity|].
  pose proof (@region_row_counts stable_sort stable_sort_ok
                [s_laptop; s_laptop; s_mouse] _ (or_introl eq_refl)) as H.
  split; [exact (proj1 H) | exact (proj1 (proj2 H))].
Defined.

(** ** The report *)

(** X16: the report raises ZeroDivisionError on a table without rows, and
    so does the entry point, whose only guard is against a file that could
    not be read; on any other table the report returns the KPI and the
    category, region and channel tables of the single calls, with a product
    table of at most five rows, the first five of the default call. *)
Theorem report_outcome `{SortValues} (df : dataframe) :
  main None = Returns None
  /\ (df = [] ->
      generate_analysis_report df = Raises ZeroDivisionError
      /\ main (Some df) = Raises ZeroDivisionError)
  /\ (df <> [] ->
      exists rep,
        generate_analysis_report df = Returns rep
        /\ main (Some df) = Returns (Some rep)
        /\ calculate_kpis df = Returns (report_kpis rep)
        /\ report_category rep = analyze_by_category df
        /\ report_region rep = analyze_by_region df
        /\ report_channel rep = analyze_by_channel df
        /\ report_product rep = firstn 5 (analyze_by_product df None)
        /\ (List.length (report_product rep) <= 5)%nat).
Proof.
  split; [reflexivity|]. split.
  - intros ->. split; reflexivity.
  - intros Hne. unfold main, generate_analysis_report.
    rewrite calculate_kpis_returns by exact Hne. cbn [bind].
    eexists. split; [reflexivity|]. split; [reflexivity|].
    cbn [report_kpis report_category report_region report_channel
         report_product].
    repeat split.
    + unfold analyze_by_product, top_n_default.
      rewrite !head_nonneg by lia. rewrite firstn_firstn. reflexivity.
    + unfold analyze_by_product. rewrite head_nonneg by lia.
      apply firstn_le_length.
Qed.

Lemma report_outcome_witness :
  @generate_analysis_report stable_sort [] = Raises ZeroDivisionError
  /\ exists rep,
       @generate_analysis_report stable_sort three_products = Returns rep
       /\ map Product.key (report_product rep)
          = ["Laptop"%string; "Mouse"%string; "Tablet"%string].
Proof.
  split.
  - exact (proj1 (proj1 (proj2 (@report_outcome stable_sort [])) eq_refl)).
  - destruct (proj2 (proj2 (@report_outcome stable_sort three_products)))
      as (rep & Hrep & _); [discriminate|].
    exists rep. split; [exact Hrep|].
    injection Hrep as <-. reflexivity.
Defined.

Lemma calculate_kpis_run_tables (df : Store.ref) (h : Store.heap) :
  (df < List.length h)%nat ->
  Store.calculate_kpis df h
  = (calculate_kpis (nth df h []),
     h ++ [df_delivered (nth df h []);
           filter (has_status Annulee) (nth df h [])]).
Proof.
  intros Hdf. unfold Store.calculate_kpis, Store.bind.
  rewrite getitem_mask_run. unfold Store.deref at 1. rewrite nth_end.
  rewrite getitem_mask_run, nth_old by exact Hdf.
  unfold Store.deref, Store.ret. rewrite nth_end, <- app_assoc.
  rewrite nth_old by exact Hdf. reflexivity.
Qed.

(** X17: run on the heap, the report returns what the report on the rows
    of its table returns, and leaves that table and every table that
    existed before unchanged: the analyses it chains all read the table as
    it was given.  On a table that has rows it builds eight working
    tables. *)
Theorem report_on_heap `{SortValues} (df : Store.ref) (h : Store.heap) :
  (df < List.length h)%nat ->
  exists ext,
    generate_analysis_report_on df h
    = (generate_analysis_report (nth df h []), h ++ ext)
    /\ nth df (h ++ ext) [] = nth df h []
    /\ firstn (List.length h) (h ++ ext) = h
    /\ (nth df h [] <> [] -> List.length ext = 8%nat).
Proof.
  intros Hdf. unfold generate_analysis_report_on, generate_analysis_report.
  unfold Store.bind at 1. rewrite calculate_kpis_run_tables by exact Hdf.
  set (t := nth df h []).
  assert (Hfirst : forall ext, firstn (List.length h) (h ++ ext) = h).
  { intros ext. rewrite firstn_app, Nat.sub_diag, firstn_all. simpl.
    apply app_nil_r. }
  destruct (calculate_kpis t) as [k|e] eqn:Ek.
  - unfold Store.bind.
    rewrite analyze_by_category_run, <- app_assoc, nth_old by exact Hdf.
    rewrite analyze_by_region_run, <- app_assoc, nth_old by exact Hdf.
    rewrite analyze_by_channel_run, <- app_assoc, nth_old by exact Hdf.
    rewrite analyze_by_product_run, <- app_assoc, nth_old by exact Hdf.
    rewrite analyze_customer_segments_run, <- app_assoc,
      nth_old by exact Hdf.
    fold t. eexists. split; [reflexivity|].
    split; [now apply nth_old|]. split; [apply Hfirst | reflexivity].
  - assert (E : t = []).
    { destruct t; [reflexivity|].
      rewrite calculate_kpis_returns in Ek by discriminate. discriminate Ek. }
    eexists. split; [reflexivity|]. split; [now apply nth_old|].
    split; [apply Hfirst | congruence].
Qed.

Lemma report_on_heap_witness :
  let h := [three_products] in
  exists ext,
    @generate_analysis_report_on stable_sort 0%nat h
    = (@generate_analysis_report stable_sort three_products, h ++ ext)
    /\ List.length ext = 8%nat.
Proof.
  destruct (@report_on_heap stable_sort 0%nat [three_products])
    as (ext & Hrun & _ & _ & Hlen); [simpl; lia|].
  exists ext. split; [exact Hrun | apply Hlen; discriminate].
Defined.

(** ** Sorting without ties *)

Lemma sorted_permutation_unique {R} (col : R -> Z) (l l' : list R) :
  StronglySorted (descending col) l ->
  StronglySorted (descending col) l' ->
  Permutation l l' ->
  NoDup (map col l) ->
  l = l'.
Proof.
  intros Hs. revert l'.
  induction Hs as [|a l Hs IH Ha]; intros l' Hs' Hp Hnd.
  - now apply Permutation_nil in Hp.
  - destruct Hs' as [|b l' Hs' Hb].
    { apply Permutation_sym, Permutation_nil in Hp. discriminate Hp. }
    rewrite Forall_forall in Ha, Hb.
    assert (E : a = b).
    { apply (NoDup_map_inj col (a :: l)); [exact Hnd | now left | |].
      - eapply Permutation_in; [apply Permutation_sym, Hp | now left].
      - assert (Hab : In b (a :: l))
          by (eapply Permutation_in; [apply Permutation_sym, Hp | now left]).
        assert (Hba : In a (b :: l'))
          by (eapply Permutation_in; [exact Hp | now left]).
        unfold descending in *.
        destruct Hab as [->|Hab]; [reflexivity|].
        destruct Hba as [->|Hba]; [reflexivity|].
        pose proof (Ha b Hab). pose proof (Hb a Hba). lia. }
    subst b. f_equal. apply IH; [exact Hs' | |].
    + eapply Permutation_cons_inv; exact Hp.
    + now inversion Hnd.
Qed.

Lemma sort_values_determined (S1 S2 : SortValues) {R} (col : R -> Z)
  (l : list R) :
  SortValuesOk S1 -> SortValuesOk S2 ->
  NoDup (map col l) ->
  @sort_values S1 R col l = @sort_values S2 R col l.
Proof.
  intros H1 H2 Hnd. apply (sorted_permutation_unique col).
  - apply sort_values_sorted.
  - apply sort_values_sorted.
  - rewrite (@sort_values_perm S1 H1), (@sort_values_perm S2 H2).
    reflexivity.
  - eapply Permutation_NoDup; [|exact Hnd].
    apply Permutation_sym, Permutation_map, sort_values_perm.
Qed.

(** X18: the sorting routine matters for ties only: when no two groups of
    a dimension have the same summed total price, any two routines that
    return the groups in descending order give the same category, region,
    channel and product tables. *)
Theorem order_determined_without_ties (S1 S2 : SortValues)
  (df : dataframe) :
  SortValuesOk S1 -> SortValuesOk S2 ->
  let d := df_delivered df in
  (NoDup (map Category.CA_total (category_analysis d)) ->
   @analyze_by_category S1 df = @analyze_by_category S2 df)
  /\ (NoDup (map Region.CA_total (region_analysis d)) ->
      @analyze_by_region S1 df = @analyze_by_region S2 df)
  /\ (NoDup (map Channel.CA_total (channel_analysis d)) ->
      @analyze_by_channel S1 df = @analyze_by_channel S2 df)
  /\ (NoDup (map Product.CA_total (product_analysis d)) ->
      forall n, @analyze_by_product S1 df n = @analyze_by_product S2 df n).
Proof.
  intros H1 H2 d.
  unfold analyze_by_category, analyze_by_region, analyze_by_channel,
    analyze_by_product.
  repeat split; intros Hnd; try intros n;
    now rewrite (sort_values_determined S1 S2).
Qed.

Lemma order_determined_without_ties_witness :
  @analyze_by_category stable_sort [s_laptop; s_cancelled; s_mouse]
  = @analyze_by_category reversing_sort [s_laptop; s_cancelled; s_mouse].
Proof.
  apply (proj1 (order_determined_without_ties stable_sort reversing_sort
                  [s_laptop; s_cancelled; s_mouse]
                  stable_sort_ok reversing_sort_ok)).
  repeat constructor; simpl; intuition discriminate.
Defined.

Lemma calculate_kpis_raises_iff_empty_witness :
  calculate_kpis [] = Raises ZeroDivisionError
  /\ exists k, calculate_kpis [s_cancelled] = Returns k.
Proof.
  split.
  - exact (proj1 (proj1 (calculate_kpis_raises_iff_empty [])) eq_refl).
  - apply (proj1 (proj2 (calculate_kpis_raises_iff_empty [s_cancelled]))).
    discriminate.
Defined.
